(** * Karton core: producer and consumer engine

    A shallow embedding of [karton/core/karton.py] (classes [Producer],
    [Consumer] and [LogConsumer]) together with the properties of its
    routing and consumption engine.

    Python methods that mutate [self], talk to the broker or raise are
    written in a monad [Py] of state, exceptions and recorded effects: a
    computation takes the world (broker, object store, the service's own
    attributes and the user's state) and gives a value or an exception, the
    world it left behind and the effects it performed, in order. *)

From stdpp Require Import base strings gmap list.
From Stdlib Require Import ZArith Lia.

Local Open Scope string_scope.
Local Open Scope Z_scope.
Local Open Scope list_scope.

(** ** Constants of the module *)

Definition TASKS_QUEUE : string := "karton.tasks".
Definition TASK_PREFIX : string := "karton.task:".
Definition METRICS_PRODUCED : string := "karton.metrics.produced".
Definition METRICS_CONSUMED : string := "karton.metrics.consumed".
Definition METRICS_ERRORED : string := "karton.metrics.errored".
Definition BINDS : string := "karton.binds".

(** ** Data model *)

Inductive TaskPriority := HIGH | NORMAL | LOW.
Inductive TaskState := STARTED | FINISHED.

(** Python exceptions, split the way [except Exception] splits them:
    [Exc] is any instance of [Exception] (with its class name and message),
    the two others derive from [BaseException] only. *)
Inductive exn :=
| Exc (cls msg : string)
| KeyboardInterrupt
| BaseExc (cls : string).

Definition is_Exception (e : exn) : bool :=
  match e with
  | Exc _ _ => true
  | KeyboardInterrupt | BaseExc _ => false
  end.

Definition is_KeyboardInterrupt (e : exn) : bool :=
  match e with
  | KeyboardInterrupt => true
  | _ => false
  end.

(** A resource is local (bytes pending upload, bucket possibly unset) or
    remote (already in the object store). *)
Inductive Resource :=
| LocalResource (name : string) (bucket : option string) (content : string)
| RemoteResource (name : string) (bucket : string) (key : string).

Inductive PayloadValue :=
| Plain (v : string)
| Res (r : Resource).

Record Task := mkTask {
  uid : string;
  headers : gmap string string;
  payload : gmap string PayloadValue;
  payload_persistent : gmap string PayloadValue;
  priority : TaskPriority;
  parent_uid : option string;
  last_update : Z;
  asynchronic : bool
}.

Definition with_headers (h : gmap string string) (t : Task) : Task :=
  mkTask (uid t) h (payload t) (payload_persistent t) (priority t)
         (parent_uid t) (last_update t) (asynchronic t).
Definition with_payload (p : gmap string PayloadValue) (t : Task) : Task :=
  mkTask (uid t) (headers t) p (payload_persistent t) (priority t)
         (parent_uid t) (last_update t) (asynchronic t).
Definition with_payload_persistent (p : gmap string PayloadValue) (t : Task) : Task :=
  mkTask (uid t) (headers t) (payload t) p (priority t)
         (parent_uid t) (last_update t) (asynchronic t).
Definition with_priority (p : TaskPriority) (t : Task) : Task :=
  mkTask (uid t) (headers t) (payload t) (payload_persistent t) p
         (parent_uid t) (last_update t) (asynchronic t).
Definition with_parent_uid (p : option string) (t : Task) : Task :=
  mkTask (uid t) (headers t) (payload t) (payload_persistent t) (priority t)
         p (last_update t) (asynchronic t).
Definition with_last_update (z : Z) (t : Task) : Task :=
  mkTask (uid t) (headers t) (payload t) (payload_persistent t) (priority t)
         (parent_uid t) z (asynchronic t).

(** A bind (filter) maps header names to the values it requires. *)
Abbreviation Bind := (gmap string string).

(** *** Task methods used by the engine

    [karton/core/task.py] and [karton/core/resource.py] are not part of the
    sources at hand; the methods the engine calls are modelled from the
    specification. *)

(** Modelled from the spec: [Task.matches_bind] (task.py is missing). A bind
    is "a mapping describing required header values"; a task satisfies it
    when every required header is present with the required value. *)
Definition matches_bind (t : Task) (b : Bind) : bool :=
  bool_decide (map_Forall (fun k v => headers t !! k = Some v) b).

(** Modelled from the spec: [Task.set_task_parent] (task.py is missing):
    "stamp the new task's parent reference to that current task". *)
Definition set_task_parent (parent : Task) (t : Task) : Task :=
  with_parent_uid (Some (uid parent)) t.

(** Modelled from the spec: [Task.merge_persistent_payload] (task.py is
    missing): "merge the current task's persistent-payload fields into the
    new task's payload (new task's own fields win on conflict)"; the fields
    stay persistent, being "propagated to all descendant tasks". The union
    of stdpp maps keeps the left operand's value on a shared key. *)
Definition merge_persistent_payload (other : Task) (t : Task) : Task :=
  with_payload_persistent (payload_persistent t ∪ payload_persistent other)
    (with_payload (payload t ∪ payload_persistent other) t).

(** Modelled from the spec: [Task.is_asynchronic] (task.py is missing), the
    task's asynchronous flag. *)
Definition is_asynchronic (t : Task) : bool := asynchronic t.

(** Modelled from the spec: [Task.iterate_resources] (task.py is missing),
    the (name, resource) pairs among the payload's values. *)
Definition iterate_resources (t : Task) : list (string * Resource) :=
  omap (fun kv => match kv.2 with
                  | Res r => Some (kv.1, r)
                  | Plain _ => None
                  end) (map_to_list (payload t)).

(** What the broker holds under a key: the serialized form of a task, or
    bytes that are not a serialized task.

    Modelled from the spec: [Task.serialize] and [Task.unserialize] (task.py
    is missing). The format "must round-trip losslessly through
    serialize/deserialize", so a serialized task is represented by the task
    it encodes. *)
Inductive Stored :=
| TaskRecord (t : Task)
| Garbage (raw : string).

Definition serialize (t : Task) : Stored := TaskRecord t.

(** ** Effects *)

Inductive LogLevel := DEBUG | INFO | EXCEPTION.

Inductive LogArg :=
| ArgStr (s : string)
| ArgBind (b : Bind).

(** One entry per effect, in the order the effects happen. Calls of user
    code are recorded when they complete, with the exception they raised,
    if any. *)
Inductive Event :=
| EvLog (lvl : LogLevel) (fmt : string) (args : list LogArg)
| EvLogSetTask (task : option Task)
| EvSet (key : string) (value : Stored)
| EvGet (key : string)
| EvRPush (key value : string)
| EvBlpop (keys : list string) (item : option (string * string))
| EvHget (name key : string)
| EvHgetHset (name key value : string)
| EvHincrby (name key : string) (amount : Z)
| EvClientSetname (name : string)
| EvUpload (r : Resource)
| EvDeclare (task : Task) (status : TaskState) (identity : string)
| EvPreHook (name : option string) (task : Task) (raised : option exn)
| EvProcess (args : list Task) (raised : option exn)
| EvPostHook (name : option string) (task : Task) (exception : option exn)
             (raised : option exn).

(** The broker: keys, lists, the bind registry and the counters. *)
Record Redis := mkRedis {
  kv : gmap string Stored;
  lists : gmap string (list string);
  binds : gmap string string;
  counters : gmap (string * string) Z
}.

Definition with_kv (m : gmap string Stored) (r : Redis) : Redis :=
  mkRedis m (lists r) (binds r) (counters r).
Definition with_lists (m : gmap string (list string)) (r : Redis) : Redis :=
  mkRedis (kv r) m (binds r) (counters r).
Definition with_binds (m : gmap string string) (r : Redis) : Redis :=
  mkRedis (kv r) (lists r) m (counters r).
Definition with_counters (m : gmap (string * string) Z) (r : Redis) : Redis :=
  mkRedis (kv r) (lists r) (binds r) m.

Inductive Result (A : Type) :=
| Returns (a : A)
| Raises (e : exn).
Arguments Returns {A} a.
Arguments Raises {A} e.

Definition raised {A} (r : Result A) : option exn :=
  match r with
  | Returns _ => None
  | Raises e => Some e
  end.

Section Engine.

(** The state owned by user code (handlers and hooks). *)
Context {U : Type}.

Record World := mkWorld {
  rs : Redis;
  minio : list Resource;
  (** what the next calls to the broker and the object store will meet:
      [Some e] makes the call raise [e], [None] lets it through; once the
      list is exhausted every call goes through *)
  faults : list (option exn);
  clock : Z;
  (** attributes of [self] *)
  current_task : option Task;
  shutdown : bool;
  user : U
}.

Definition with_rs (r : Redis) (w : World) : World :=
  mkWorld r (minio w) (faults w) (clock w) (current_task w) (shutdown w) (user w).
Definition with_minio (m : list Resource) (w : World) : World :=
  mkWorld (rs w) m (faults w) (clock w) (current_task w) (shutdown w) (user w).
Definition with_faults (f : list (option exn)) (w : World) : World :=
  mkWorld (rs w) (minio w) f (clock w) (current_task w) (shutdown w) (user w).
Definition with_current_task (t : option Task) (w : World) : World :=
  mkWorld (rs w) (minio w) (faults w) (clock w) t (shutdown w) (user w).
Definition with_shutdown (b : bool) (w : World) : World :=
  mkWorld (rs w) (minio w) (faults w) (clock w) (current_task w) b (user w).
Definition with_user (u : U) (w : World) : World :=
  mkWorld (rs w) (minio w) (faults w) (clock w) (current_task w) (shutdown w) u.

(** *** The monad

    Running a computation from a world gives its result (a value or an
    exception), the world it leaves and the effects it performed, in
    order. *)

Record Outcome (A : Type) := mkOutcome {
  result : Result A;
  final : World;
  events : list Event
}.
Arguments mkOutcome {A} result final events.
Arguments result {A} o.
Arguments final {A} o.
Arguments events {A} o.

Definition Py (A : Type) : Type := World -> Outcome A.

Definition ret {A} (a : A) : Py A := fun w => mkOutcome (Returns a) w [].

Definition raise {A} (e : exn) : Py A := fun w => mkOutcome (Raises e) w [].

(** The outcome [o] of a continuation, with the events [evs] that came
    before it. *)
Definition after {A} (evs : list Event) (o : Outcome A) : Outcome A :=
  mkOutcome (result o) (final o) (evs ++ events o).

Definition bind {A B} (m : Py A) (k : A -> Py B) : Py B :=
  fun w => let o := m w in
           match result o with
           | Returns a => after (events o) (k a (final o))
           | Raises e => mkOutcome (Raises e) (final o) (events o)
           end.

#[global] Instance Py_ret : MRet Py := @ret.
#[global] Instance Py_bind : MBind Py := fun A B k m => bind m k.

(** [try: body finally: fin]: [fin] runs on every exit path of [body]; an
    exception raised by [fin] replaces the outcome of [body]. *)
Definition try_finally {A} (body : Py A) (fin : Py unit) : Py A :=
  fun w => let o := body w in
           let f := fin (final o) in
           match result f with
           | Returns _ => mkOutcome (result o) (final f) (events o ++ events f)
           | Raises e => mkOutcome (Raises e) (final f) (events o ++ events f)
           end.

(** [try: body except Exception: handler]: only instances of [Exception]
    are caught. *)
Definition try_except_Exception {A} (body : Py A) (handler : exn -> Py A) : Py A :=
  fun w => let o := body w in
           match result o with
           | Returns _ => o
           | Raises e =>
               if is_Exception e then after (events o) (handler e (final o)) else o
           end.

(** [try: body except KeyboardInterrupt as e: handler]. *)
Definition try_except_KeyboardInterrupt {A} (body : Py A) (handler : exn -> Py A)
  : Py A :=
  fun w => let o := body w in
           match result o with
           | Returns _ => o
           | Raises e =>
               if is_KeyboardInterrupt e then after (events o) (handler e (final o)) else o
           end.

(** [for x in xs: body x]. *)
Fixpoint for_each {A} (xs : list A) (body : A -> Py unit) : Py unit :=
  match xs with
  | [] => mret tt
  | x :: rest => body x ;; for_each rest body
  end.

(** *** Primitive effects *)

(** A call that leaves the process (broker or object store): it meets the
    next entry of [faults]; when it goes through, [op] gives its value and
    its effect on the world and [ev] the entry it leaves in the record of
    effects. *)
Definition transport {A} (op : World -> A * World) (ev : A -> Event) : Py A :=
  fun w => match faults w with
           | Some e :: rest => mkOutcome (Raises e) (with_faults rest w) []
           | None :: rest =>
               let r := op (with_faults rest w) in mkOutcome (Returns r.1) r.2 [ev r.1]
           | [] => let r := op w in mkOutcome (Returns r.1) r.2 [ev r.1]
           end.

Definition log (lvl : LogLevel) (fmt : string) (args : list LogArg) : Py unit :=
  fun w => mkOutcome (Returns tt) w [EvLog lvl fmt args].

(** [self.log_handler.set_task(task)] *)
Definition log_handler_set_task (t : option Task) : Py unit :=
  fun w => mkOutcome (Returns tt) w [EvLogSetTask t].

Definition get_current_task : Py (option Task) :=
  fun w => mkOutcome (Returns (current_task w)) w [].

Definition set_current_task (t : option Task) : Py unit :=
  fun w => mkOutcome (Returns tt) (with_current_task t w) [].

(** [time.time()] *)
Definition time_time : Py Z := fun w => mkOutcome (Returns (clock w)) w [].

(** [self.rs.set(key, value)] *)
Definition rs_set (key : string) (value : Stored) : Py unit :=
  transport
    (fun w => (tt, with_rs (with_kv (<[key := value]> (kv (rs w))) (rs w)) w))
    (fun _ => EvSet key value).

(** [self.rs.get(key)]: [None] when the key does not exist. *)
Definition rs_get (key : string) : Py (option Stored) :=
  transport (fun w => (kv (rs w) !! key, w)) (fun _ => EvGet key).

(** [self.rs.rpush(key, value)]: append at the tail of the list. *)
Definition rs_rpush (key value : string) : Py unit :=
  transport
    (fun w =>
       (tt, with_rs (with_lists (<[key := (default [] (lists (rs w) !! key) ++ [value])%list]>
                                   (lists (rs w))) (rs w)) w))
    (fun _ => EvRPush key value).

(** The broker's BLPOP on lists: the keys are examined in the order given
    and the head of the first list that is not empty is removed; a list
    that becomes empty disappears. *)
Fixpoint blpop_lists (l : gmap string (list string)) (keys : list string)
  : option (string * string * gmap string (list string)) :=
  match keys with
  | [] => None
  | k :: rest =>
      match l !! k with
      | Some (x :: xs) =>
          Some (k, x, match xs with [] => delete k l | _ => <[k := xs]> l end)
      | _ => blpop_lists l rest
      end
  end.

(** [self.rs.blpop(keys, timeout=5)]: [None] when the wait times out, that
    is when every list stayed empty. *)
Definition rs_blpop (keys : list string) : Py (option (string * string)) :=
  transport
    (fun w =>
       match blpop_lists (lists (rs w)) keys with
       | Some (k, x, l') => (Some (k, x), with_rs (with_lists l' (rs w)) w)
       | None => (None, w)
       end)
    (fun item => EvBlpop keys item).

(** [self.rs.hget("karton.binds", key)] *)
Definition rs_hget_binds (key : string) : Py (option string) :=
  transport (fun w => (binds (rs w) !! key, w)) (fun _ => EvHget BINDS key).

(** The transaction of [Consumer.loop]: [hget] then [hset] on the bind
    registry, executed atomically; the result of [hget] is what matters. *)
Definition rs_pipeline_hget_hset_binds (key value : string) : Py (option string) :=
  transport
    (fun w =>
       (binds (rs w) !! key,
        with_rs (with_binds (<[key := value]> (binds (rs w))) (rs w)) w))
    (fun _ => EvHgetHset BINDS key value).

(** [self.rs.hincrby(name, key, amount)] *)
Definition rs_hincrby (name key : string) (amount : Z) : Py unit :=
  transport
    (fun w =>
       (tt, with_rs (with_counters
                       (<[(name, key) := default 0 (counters (rs w) !! (name, key)) + amount]>
                          (counters (rs w))) (rs w)) w))
    (fun _ => EvHincrby name key amount).

(** [self.rs.client_setname(name)] *)
Definition rs_client_setname (name : string) : Py unit :=
  transport (fun w => (tt, w)) (fun _ => EvClientSetname name).

(** Modelled from the spec: [LocalResource.upload] (resource.py is missing):
    the resource is put into the object store. *)
Definition upload (r : Resource) : Py unit :=
  transport (fun w => (tt, with_minio (minio w ++ [r]) w)) (fun _ => EvUpload r).

(** Modelled from the spec: [KartonBase.declare_task_state] (base.py is
    missing): a lifecycle marker "reported to the broker keyed by task id
    and reporting identity". *)
Definition declare_task_state (task : Task) (status : TaskState) (identity : string)
  : Py unit :=
  transport (fun w => (tt, w)) (fun _ => EvDeclare task status identity).

(** Modelled from the spec: [Task.unserialize] (task.py is missing) applied
    to what [rs.get] returned: a serialized task gives the task back,
    anything else is a malformed record. *)
Definition unserialize (v : option Stored) : Py Task :=
  match v with
  | Some (TaskRecord t) => mret t
  | Some (Garbage raw) => raise (Exc "ValueError" raw)
  | None => raise (Exc "TypeError" "the JSON object must be str, bytes or bytearray")
  end.

(** ** The service: configuration and user code *)

(** What a call of user code leaves behind: the exception it raised if any,
    the task object it was handed (which it may have mutated) and its own
    state. *)
Record CallResult := mkCallResult {
  cr_raised : option exn;
  cr_task : Task;
  cr_user : U
}.

Definition PreHook : Type := Task -> U -> CallResult.
Definition PostHook : Type := Task -> option exn -> U -> CallResult.

Record Service := mkService {
  identity : string;
  (** [self.config.minio_config["bucket"]] *)
  minio_bucket : string;
  filters : list Bind;
  (** the value of the [_registration] property *)
  _registration : string;
  _pre_hooks : list (option string * PreHook);
  _post_hooks : list (option string * PostHook);
  (** [self.process] and [get_function_arg_num(self.process)] *)
  process : Task -> U -> CallResult;
  process_arg_num : nat
}.

(** Reading an attribute of [self.current_task] (or handing it to a method
    that does): with no current task this is an [AttributeError]. *)
Definition the_current_task : Py Task :=
  fun w => match current_task w with
           | Some t => mkOutcome (Returns t) w []
           | None =>
               mkOutcome (Raises (Exc "AttributeError" "'NoneType' object has no attribute"))
                 w []
           end.

(** Python truthiness of an optional string ([None] and the empty string
    are false). *)
Definition truthy (s : option string) : bool :=
  match s with
  | None | Some "" => false
  | Some _ => true
  end.

(** ** Producer *)

(** [if isinstance(resource, LocalResource) and not resource.bucket:
    resource.bucket = bucket] *)
Definition ensure_bucket (bucket : string) (v : PayloadValue) : PayloadValue :=
  match v with
  | Res (LocalResource name b content) =>
      if truthy b then v else Res (LocalResource name (Some bucket) content)
  | _ => v
  end.

(** The task object as [send_task] leaves it before serializing it
    (lines 70-82): parent, persistent payload and priority taken from the
    current task if there is one, then the time stamp, the origin header and
    the buckets of local resources. *)
Definition complete_task (c : Service) (cur : option Task) (now : Z) (task : Task) : Task :=
  let task := match cur with
              | Some cur =>
                  with_priority (priority cur)
                    (merge_persistent_payload cur (set_task_parent cur task))
              | None => task
              end in
  let task := with_last_update now task in
  let task := with_headers (<["origin" := identity c]> (headers task)) task in
  with_payload (ensure_bucket (minio_bucket c) <$> payload task) task.

Definition is_LocalResource (r : Resource) : bool :=
  match r with
  | LocalResource _ _ _ => true
  | RemoteResource _ _ _ => false
  end.

Definition send_task (c : Service) (task : Task) : Py bool :=
  log DEBUG "Dispatched task %s" [ArgStr (uid task)] ;;
  cur ← get_current_task ;
  now ← time_time ;
  let task := complete_task c cur now task in
  let task_json := serialize task in
  (* Declare task *)
  rs_set (TASK_PREFIX +:+ uid task) task_json ;;
  (* Upload local resources *)
  for_each (iterate_resources task)
    (fun nr => if is_LocalResource nr.2 then upload nr.2 else mret tt) ;;
  (* Add task to TASKS_QUEUE *)
  rs_rpush TASKS_QUEUE (uid task) ;;
  rs_hincrby METRICS_PRODUCED (identity c) 1 ;;
  mret true.

(** [with self.continue_asynchronic(task, finish): body]. The generator
    behind the context manager runs up to its [yield], then the body of the
    [with] block runs; an exception of the body is thrown into the generator
    at the [yield], which has no [try] around it, so the exception leaves the
    generator at once and the statements after the [yield] run only when
    the body returns. *)
Definition continue_asynchronic (c : Service) (task : Task) (finish : bool)
    (body : Py unit) : Py unit :=
  old_current_task ← get_current_task ;
  set_current_task (Some task) ;;
  cur ← get_current_task ;
  log_handler_set_task cur ;;
  (* Handle task *)
  body ;;
  (* Finish task *)
  (if finish
   then cur ← the_current_task ; declare_task_state cur FINISHED (identity c)
   else mret tt) ;;
  set_current_task old_current_task ;;
  cur ← get_current_task ;
  log_handler_set_task cur.

(** ** Consumer *)

Definition set_shutdown (b : bool) : Py unit :=
  fun w => mkOutcome (Returns tt) (with_shutdown b w) [].

Definition graceful_shutdown : Py unit :=
  log INFO "Gracefully shutting down!" [] ;;
  set_shutdown true.

(** A call of user code on [self.current_task]: the callee works on the very
    object the service holds, so what it did to the task is what
    [self.current_task] is afterwards. *)
Definition apply_user (f : Task -> U -> CallResult) (ev : Task -> option exn -> Event)
    (t : Task) : Py unit :=
  fun w =>
    let r := f t (user w) in
    mkOutcome (match cr_raised r with
               | None => Returns tt
               | Some e => Raises e
               end)
      (with_user (cr_user r) (with_current_task (Some (cr_task r)) w))
      [ev t (cr_raised r)].

Definition call_user (f : Task -> U -> CallResult) (ev : Task -> option exn -> Event)
  : Py unit :=
  t ← the_current_task ;
  apply_user f ev t.

Definition _run_pre_hooks (c : Service) : Py unit :=
  for_each (_pre_hooks c) (fun h =>
    try_except_Exception
      (call_user h.2 (EvPreHook h.1))
      (fun _ => if truthy h.1
                then log EXCEPTION "Pre-hook (%s) failed" [ArgStr (default "" h.1)]
                else log EXCEPTION "Pre-hook failed" [])).

Definition _run_post_hooks (c : Service) (exception : option exn) : Py unit :=
  for_each (_post_hooks c) (fun h =>
    try_except_Exception
      (call_user (fun t => h.2 t exception) (fun t => EvPostHook h.1 t exception))
      (fun _ => if truthy h.1
                then log EXCEPTION "Post-hook (%s) failed" [ArgStr (default "" h.1)]
                else log EXCEPTION "Post-hook failed" [])).

(** [self.process()] or [self.process(self.current_task)], by the number of
    arguments [self.process] takes. *)
Definition call_process (c : Service) : Py unit :=
  match process_arg_num c with
  | O => call_user (process c) (fun _ => EvProcess [])
  | S _ => call_user (process c) (fun t => EvProcess [t])
  end.

(** The inner [try] of [internal_process] (lines 189-199). The local
    [saved_exception] is bound on the two paths that reach the [finally]
    clause through an assignment; an exception that [except Exception] does
    not catch reaches the [finally] clause with the name still unbound. *)
Definition process_with_post_hooks (c : Service) : Py unit :=
  fun w =>
    let o := call_process c w in
    match result o with
    | Returns _ =>
        (* saved_exception = None; finally: *)
        after (events o) (_run_post_hooks c None (final o))
    | Raises exc =>
        if is_Exception exc then
          (* saved_exception = exc; raise; finally: *)
          let f := _run_post_hooks c (Some exc) (final o) in
          match result f with
          | Returns _ => mkOutcome (Raises exc) (final f) (events o ++ events f)
          | Raises e' => mkOutcome (Raises e') (final f) (events o ++ events f)
          end
        else
          (* finally: *)
          mkOutcome
            (Raises (Exc "UnboundLocalError"
                       "local variable 'saved_exception' referenced before assignment"))
            (final o) (events o)
    end.

(** [Task.unserialize(self.rs.get("karton.task:" + data), minio=self.minio)] *)
Definition fetch_task (data : string) : Py Task :=
  v ← rs_get ("karton.task:" +:+ data) ;
  unserialize v.

(** The three blocks of the [try] statement of [internal_process]: the
    body (lines 181-201), the [except Exception] clause (lines 203-206) and
    the [finally] clause (lines 208-212). *)
Definition try_block (c : Service) : Py unit :=
  t ← the_current_task ;
  log INFO "Received new task - %s" [ArgStr (uid t)] ;;
  t ← the_current_task ;
  declare_task_state t STARTED (identity c) ;;
  _run_pre_hooks c ;;
  process_with_post_hooks c ;;
  t ← the_current_task ;
  log INFO "Task done - %s" [ArgStr (uid t)].

Definition except_block (c : Service) : Py unit :=
  rs_hincrby METRICS_ERRORED (identity c) 1 ;;
  t ← the_current_task ;
  log EXCEPTION "Failed to process task - %s" [ArgStr (uid t)].

Definition finally_block (c : Service) : Py unit :=
  rs_hincrby METRICS_CONSUMED (identity c) 1 ;;
  t ← the_current_task ;
  if negb (is_asynchronic t)
  then declare_task_state t FINISHED (identity c)
  else mret tt.

(** The [else] clause of the [for] loop over the binds (lines 174-178). *)
Definition reject (c : Service) : Py unit :=
  log INFO "Task rejected because binds are no longer valid." [] ;;
  t ← the_current_task ;
  declare_task_state t FINISHED (identity c).

Definition internal_process (c : Service) (data : string) : Py unit :=
  t ← fetch_task data ;
  set_current_task (Some t) ;;
  cur ← get_current_task ;
  log_handler_set_task cur ;;
  t ← the_current_task ;
  match find (matches_bind t) (filters c) with
  | None => reject c
  | Some _ =>
      try_finally
        (try_except_Exception (try_block c) (fun _ => except_block c))
        (finally_block c)
  end.

Definition add_pre_hook (callback : PreHook) (name : option string) (c : Service)
  : Service :=
  mkService (identity c) (minio_bucket c) (filters c) (_registration c)
    (_pre_hooks c ++ [(name, callback)]) (_post_hooks c) (process c) (process_arg_num c).

Definition add_post_hook (callback : PostHook) (name : option string) (c : Service)
  : Service :=
  mkService (identity c) (minio_bucket c) (filters c) (_registration c)
    (_pre_hooks c) (_post_hooks c ++ [(name, callback)]) (process c) (process_arg_num c).

(** *** The consumption loop *)

(** How [str.format] renders a member of [TaskPriority]; the enumeration is
    declared in task.py, which is missing. *)
Variable priority_format : TaskPriority -> string.

(** ["karton.queue.{}:{}".format(priority, identity)] *)
Definition queue_name (p : TaskPriority) (ident : string) : string :=
  "karton.queue." +:+ priority_format p +:+ ":" +:+ ident.

(** The keys handed to [blpop], in the order the source lists them. *)
Definition poll_keys (c : Service) : list string :=
  [ identity c;  (* Backwards compatibility, remove after upgrade *)
    queue_name HIGH (identity c);
    queue_name NORMAL (identity c);
    queue_name LOW (identity c) ].

(** One pass through the body of [while not self.shutdown]: [false] stands
    for [break]. *)
Definition loop_body (c : Service) : Py bool :=
  registered ← rs_hget_binds (identity c) ;
  if bool_decide (registered = Some (_registration c)) then
    item ← rs_blpop (poll_keys c) ;
    match item with
    | Some (queue, data) => internal_process c data ;; mret true
    | None => mret true
    end
  else
    log INFO "Binds changed, shutting down." [] ;; mret false.

(** [while not self.shutdown: ...], for at most [fuel] passes: the result is
    [true] when the loop has ended and [false] when the passes ran out
    first. *)
Fixpoint while_not_shutdown (c : Service) (fuel : nat) : Py bool :=
  match fuel with
  | O => mret false
  | S n =>
      fun w =>
        if shutdown w then mkOutcome (Returns true) w []
        else let o := loop_body c w in
             match result o with
             | Returns true => after (events o) (while_not_shutdown c n (final o))
             | Returns false => mkOutcome (Returns true) (final o) (events o)
             | Raises e => o
             end
  end.

(** The [try] statement around the [while] loop (lines 293-314). *)
Definition consume (c : Service) (fuel : nat) : Py bool :=
  try_except_KeyboardInterrupt
    (while_not_shutdown c fuel)
    (fun e => log INFO "Hard shutting down!" [] ;; raise e).

Definition loop (c : Service) (fuel : nat) : Py bool :=
  log INFO "Service %s started" [ArgStr (identity c)] ;;
  (* get the old binds and set the new ones atomically *)
  old_registration ← rs_pipeline_hget_hset_binds (identity c) (_registration c) ;
  (if negb (truthy old_registration) then
     log INFO "Service binds created." []
   else if negb (bool_decide (old_registration = Some (_registration c))) then
     log INFO "Binds changed, old service instances should exit soon." []
   else mret tt) ;;
  for_each (filters c) (fun task_filter =>
    log INFO "Binding on: %s" [ArgBind task_filter]) ;;
  rs_client_setname (identity c) ;;
  consume c fuel.

End Engine.

Arguments mkOutcome {U A} result final events.
Arguments result {U A} o.
Arguments final {U A} o.
Arguments events {U A} o.
Arguments World : clear implicits.
Arguments Outcome : clear implicits.
Arguments Py : clear implicits.
Arguments CallResult : clear implicits.
Arguments PreHook : clear implicits.
Arguments PostHook : clear implicits.
Arguments Service : clear implicits.


(** ** Reading the record of effects *)

(** The names of the pre-hooks called, in order. *)
Definition pre_hook_calls (evs : list Event) : list (option string) :=
  omap (fun e => match e with
                 | EvPreHook name _ _ => Some name
                 | _ => None
                 end) evs.

(** The post-hooks called, in order, each with the exception argument it
    was given. *)
Definition post_hook_calls (evs : list Event) : list (option string * option exn) :=
  omap (fun e => match e with
                 | EvPostHook name _ exception _ => Some (name, exception)
                 | _ => None
                 end) evs.

Definition hook_failed (e : Event) : bool :=
  match e with
  | EvPreHook _ _ (Some _) | EvPostHook _ _ _ (Some _) => true
  | _ => false
  end.

Definition is_failure_log (e : Event) : bool :=
  match e with
  | EvLog EXCEPTION _ _ => true
  | _ => false
  end.

(** Every hook call that raised is directly followed by an entry of
    [log.exception]. *)
Fixpoint failures_logged (evs : list Event) : bool :=
  match evs with
  | [] => true
  | e :: rest =>
      (if hook_failed e
       then match rest with
            | next :: _ => is_failure_log next
            | [] => false
            end
       else true) && failures_logged rest
  end.

Definition is_pre_hook_activity (e : Event) : bool :=
  match e with
  | EvPreHook _ _ _ | EvLog EXCEPTION _ _ => true
  | _ => false
  end.

Definition is_post_hook_activity (e : Event) : bool :=
  match e with
  | EvPostHook _ _ _ _ | EvLog EXCEPTION _ _ => true
  | _ => false
  end.

Definition is_process_call (e : Event) : bool :=
  match e with
  | EvProcess _ _ => true
  | _ => false
  end.

Definition is_declare (status : TaskState) (e : Event) : bool :=
  match e, status with
  | EvDeclare _ STARTED _, STARTED => true
  | EvDeclare _ FINISHED _, FINISHED => true
  | _, _ => false
  end.

(** User code whose failures are all instances of [Exception]. *)
Definition raises_only_Exception {U} (f : Task -> U -> CallResult U) : Prop :=
  forall t u e, cr_raised (f t u) = Some e -> is_Exception e = true.

(** The local resources among the resources of a task, in the order
    [iterate_resources] yields them. *)
Definition local_resources (t : Task) : list Resource :=
  filter (fun r => is_LocalResource r = true) (iterate_resources t).*2.

Section Vocabulary.

Context {U : Type}.

(** The effects of [o] are an initial part of [expected], and all of it when
    [o] returned. *)
Definition performs {A} (o : Outcome U A) (expected : list Event) : Prop :=
  events o `prefix_of` expected /\ (forall a, result o = Returns a -> events o = expected).

(** The world after user code [f] ran on the current task [t]. *)
Definition user_step (f : Task -> U -> CallResult U) (t : Task) (w : World U) : World U :=
  with_user (cr_user (f t (user w))) (with_current_task (Some (cr_task (f t (user w)))) w).

Definition pre_hook_failure_log (h : option string * PreHook U) : Event :=
  if truthy h.1
  then EvLog EXCEPTION "Pre-hook (%s) failed" [ArgStr (default "" h.1)]
  else EvLog EXCEPTION "Pre-hook failed" [].

Definition post_hook_failure_log (h : option string * PostHook U) : Event :=
  if truthy h.1
  then EvLog EXCEPTION "Post-hook (%s) failed" [ArgStr (default "" h.1)]
  else EvLog EXCEPTION "Post-hook failed" [].

(** The arguments [call_process] hands to the handler. *)
Definition process_args (c : Service U) (t : Task) : list Task :=
  match process_arg_num c with
  | O => []
  | S _ => [t]
  end.

(** The world after [hincrby name key 1]. *)
Definition bump (name key : string) (w : World U) : World U :=
  with_rs (with_counters
             (<[(name, key) := default 0 (counters (rs w) !! (name, key)) + 1]>
                (counters (rs w))) (rs w)) w.

(** [m] keeps the invariant [I] of the world and performs only effects that
    satisfy [P]. *)
Definition keeps {A} (I : World U -> Prop) (P : Event -> Prop) (m : Py U A) : Prop :=
  forall w, I w -> I (final (m w)) /\ Forall P (events (m w)).

(** Broker and object store reachable, and a current task set. *)
Definition steady (w : World U) : Prop := faults w = [] /\ is_Some (current_task w).

Definition not_finished (e : Event) : Prop := is_declare FINISHED e = false.

End Vocabulary.

(** The list under [k] holds nothing. *)
Definition no_items (l : gmap string (list string)) (k : string) : Prop :=
  l !! k = None \/ l !! k = Some [].

(** ** What a run leaves behind *)

Section Footprint.
Context {U : Type}.

(** The world after the hooks [fs] ran in turn, each on the current task as
    its predecessors left it; with no current task a hook is not entered. *)
Fixpoint after_hooks (fs : list (Task -> U -> CallResult U)) (w : World U) : World U :=
  match fs with
  | [] => w
  | f :: rest =>
      match current_task w with
      | Some t => after_hooks rest (user_step f t w)
      | None => after_hooks rest w
      end
  end.

(** The broker is as in [w0] except, at most, for the consumed and errored
    counters of [ident]; faults may have been met. *)
Definition only_metrics_differ (ident : string) (w0 w : World U) : Prop :=
  kv (rs w) = kv (rs w0)
  /\ lists (rs w) = lists (rs w0)
  /\ binds (rs w) = binds (rs w0)
  /\ minio w = minio w0
  /\ shutdown w = shutdown w0
  /\ forall key, key <> (METRICS_CONSUMED, ident) -> key <> (METRICS_ERRORED, ident) ->
       counters (rs w) !! key = counters (rs w0) !! key.

(** What a consumer may do while it handles one task: read the record, log,
    declare states, call user code and count under its own identity. *)
Definition consumer_effect (ident : string) (e : Event) : Prop :=
  match e with
  | EvGet _ | EvLog _ _ _ | EvLogSetTask _ | EvDeclare _ _ _
  | EvPreHook _ _ _ | EvProcess _ _ | EvPostHook _ _ _ _ => True
  | EvHincrby name key amount =>
      (name = METRICS_CONSUMED \/ name = METRICS_ERRORED) /\ key = ident /\ amount = 1
  | _ => False
  end.

(** What [loop] logs about the registration it replaced. *)
Definition registration_notice (c : Service U) (old : option string) : list Event :=
  if negb (truthy old) then [EvLog INFO "Service binds created." []]
  else if negb (bool_decide (old = Some (_registration c)))
       then [EvLog INFO "Binds changed, old service instances should exit soon." []]
       else [].

(** The world once the service has written its registration. *)
Definition registered (c : Service U) (w : World U) : World U :=
  with_rs (with_binds (<[identity c := _registration c]> (binds (rs w))) (rs w)) w.

End Footprint.

(** ** Log consumer *)

Definition LOGS_QUEUE : string := "karton.logs".

(** What [json.loads] returns: [dict], [list], [str], a number, a boolean
    or [None]. *)
#[warnings="-register-all"]
Inductive Json :=
| JNull
| JBool (b : bool)
| JNumber (literal : string)
| JString (s : string)
| JArray (items : list Json)
| JObject (fields : gmap string Json).

(** The effects of the log consumer, in the order they happen;
    [LcPrintExc] is [traceback.print_exc()], which writes to the standard
    error stream and not to the service's logger. *)
Inductive LogEvent :=
| LcLog (lvl : LogLevel) (fmt : string) (args : list LogArg)
| LcBlpop (key : string) (item : string * string)
| LcProcessLog (event : Json) (raised : option exn)
| LcPrintExc (e : exn).

(** How a run of the loop stands after a number of passes. *)
Inductive LoopEnd :=
| Exited                (* [self.shutdown] was found set *)
| Blocked               (* waiting in [blpop] on an empty list *)
| Unfinished            (* the passes ran out *)
| Failed (e : exn).     (* an exception left the loop *)

Definition and_then {A B} (r : Result A) (k : A -> Result B) : Result B :=
  match r with
  | Returns a => k a
  | Raises e => Raises e
  end.

(** ["task" in body] *)
Definition contains_task (body : Json) : Result bool :=
  match body with
  | JObject fields => Returns (bool_decide (is_Some (fields !! "task")))
  | JArray items =>
      Returns (existsb (fun x => match x with
                                 | JString s => bool_decide (s = "task")
                                 | _ => false
                                 end) items)
  | JString s =>
      Returns (match String.index 0 "task" s with Some _ => true | None => false end)
  | JNull | JBool _ | JNumber _ =>
      Raises (Exc "TypeError" "argument is not iterable")
  end.

(** [body["task"]] *)
Definition getitem_task (body : Json) : Result Json :=
  match body with
  | JObject fields =>
      match fields !! "task" with
      | Some v => Returns v
      | None => Raises (Exc "KeyError" "task")
      end
  | JArray _ => Raises (Exc "TypeError" "list indices must be integers or slices, not str")
  | JString _ => Raises (Exc "TypeError" "string indices must be integers")
  | JNull | JBool _ | JNumber _ => Raises (Exc "TypeError" "object is not subscriptable")
  end.

(** [body["task"] = value] *)
Definition setitem_task (body : Json) (value : Json) : Result Json :=
  match body with
  | JObject fields => Returns (JObject (<["task" := value]> fields))
  | _ => Raises (Exc "TypeError" "object does not support item assignment")
  end.

Section LogEngine.

Context {U : Type}.

(** [json.loads] of the standard library: [None] when the text is not JSON,
    where the call raises [JSONDecodeError], a [ValueError]. *)
Variable json_loads : string -> option Json.

Definition loads (text : string) : Result Json :=
  match json_loads text with
  | Some v => Returns v
  | None => Raises (Exc "JSONDecodeError" text)
  end.

(** Lines 345-347: what is handed to [process_log] for the popped [raw]. *)
Definition decode_event (raw : string) : Result Json :=
  and_then (loads raw) (fun body =>
  and_then (contains_task body) (fun present =>
  if present then
    and_then (getitem_task body) (fun item =>
    match item with
    | JString s => and_then (loads s) (fun task => setitem_task body task)
    | _ => Returns body
    end)
  else Returns body)).

(** What a call of [process_log] leaves behind: the exception it raised if
    any, the user's state, and [self.shutdown] as the call left it (the
    callback is a method of the service). *)
Record LogCall := mkLogCall {
  lc_raised : option exn;
  lc_user : U;
  lc_shutdown : bool
}.

Record LogService := mkLogService {
  logger_identity : string;
  process_log : Json -> U -> LogCall
}.

Record LogRun := mkLogRun {
  lr_end : LoopEnd;
  lr_final : World U;
  lr_trace : list LogEvent
}.

(** The [except Exception] clause of the loop: [Some e] when [e] is not
    caught. *)
Definition except_print (e : exn) : option exn * list LogEvent :=
  if is_Exception e then (None, [LcPrintExc e]) else (Some e, []).

(** The [try] statement of the loop (lines 344-354) on a popped [raw]: the
    exception that leaves it if any, the world and the effects. *)
Definition handle_log (c : LogService) (raw : string) (w : World U)
  : option exn * World U * list LogEvent :=
  match decode_event raw with
  | Returns body =>
      let r := process_log c body (user w) in
      let w' := with_shutdown (lc_shutdown r) (with_user (lc_user r) w) in
      match lc_raised r with
      | None => (None, w', [LcProcessLog body None])
      | Some e =>
          let p := except_print e in
          (p.1, w', LcProcessLog body (Some e) :: p.2)
      end
  | Raises e => let p := except_print e in (p.1, w, p.2)
  end.

Definition log_after (evs : list LogEvent) (r : LogRun) : LogRun :=
  mkLogRun (lr_end r) (lr_final r) (evs ++ lr_trace r).

(** [while not self.shutdown: ...] of [LogConsumer.loop], for at most
    [fuel] passes. [blpop] is called without a timeout: on an empty list it
    does not return, and what it returns otherwise is a pair, which is
    true. *)
Fixpoint log_while (c : LogService) (fuel : nat) (w : World U) : LogRun :=
  match fuel with
  | O => mkLogRun Unfinished w []
  | S n =>
      if shutdown w then mkLogRun Exited w []
      else
        match faults w with
        | Some e :: rest => mkLogRun (Failed e) (with_faults rest w) []
        | fs =>
            let w1 := with_faults (tail fs) w in
            match blpop_lists (lists (rs w1)) [LOGS_QUEUE] with
            | None => mkLogRun Blocked w1 []
            | Some (queue, body, l') =>
                let h := handle_log c body (with_rs (with_lists l' (rs w1)) w1) in
                match h.1.1 with
                | Some e => mkLogRun (Failed e) h.1.2 (LcBlpop LOGS_QUEUE (queue, body) :: h.2)
                | None =>
                    log_after (LcBlpop LOGS_QUEUE (queue, body) :: h.2)
                      (log_while c n h.1.2)
                end
            end
        end
  end.

Definition log_loop (c : LogService) (fuel : nat) : World U -> LogRun :=
  fun w => log_after [LcLog INFO "Logger %s started" [ArgStr (logger_identity c)]]
             (log_while c fuel w).

End LogEngine.

Arguments LogCall : clear implicits.
Arguments LogService : clear implicits.
Arguments LogRun : clear implicits.

(** The bodies popped, the events handed to [process_log] and the
    tracebacks printed, in order. *)
Definition popped (tr : list LogEvent) : list string :=
  omap (fun e => match e with LcBlpop _ item => Some item.2 | _ => None end) tr.

Definition process_log_calls (tr : list LogEvent) : list Json :=
  omap (fun e => match e with LcProcessLog body _ => Some body | _ => None end) tr.

Definition printed (tr : list LogEvent) : list exn :=
  omap (fun e => match e with LcPrintExc e => Some e | _ => None end) tr.

Definition is_logger_call (e : LogEvent) : bool :=
  match e with LcLog _ _ _ => true | _ => false end.

Definition decoded (json_loads : string -> option Json) (raw : string) : option Json :=
  match decode_event json_loads raw with
  | Returns body => Some body
  | Raises _ => None
  end.

(** A callback that keeps to [Exception] and leaves [self.shutdown] alone. *)
Definition plain_callback {U} (c : LogService U) : Prop :=
  forall body u,
    lc_shutdown (process_log c body u) = false
    /\ forall e, lc_raised (process_log c body u) = Some e -> is_Exception e = true.

(** What [process_log] can be handed: a [dict], or a [list] or [str] in
    which ["task"] does not occur. *)
Definition reaches_process_log (body : Json) : Prop :=
  match body with
  | JObject _ => True
  | JArray _ | JString _ => contains_task body = Returns false
  | JNull | JBool _ | JNumber _ => False
  end.

(** The events of a record that are calls of [process_log] were handed a
    body satisfying [P]. *)
Definition handed_only (P : Json -> Prop) (tr : list LogEvent) : Prop :=
  Forall (fun e => match e with LcProcessLog body _ => P body | _ => True end) tr.

(** ** Concrete services, tasks and worlds *)

Module Demo.

(** The user state counts the calls of user code. *)
Definition ok_hook : PreHook nat := fun t n => mkCallResult None t (S n).
Definition failing_hook : PreHook nat :=
  fun t n => mkCallResult (Some (Exc "RuntimeError" "hook down")) t (S n).
Definition ok_post_hook : PostHook nat := fun t _ n => mkCallResult None t (S n).
Definition failing_post_hook : PostHook nat :=
  fun t _ n => mkCallResult (Some (Exc "RuntimeError" "post-hook down")) t (S n).
Definition failing_process : Task -> nat -> CallResult nat :=
  fun t n => mkCallResult (Some (Exc "ValueError" "bad sample")) t (S n).

Definition service : Service nat :=
  mkService "karton.test" "karton"
    [ {["type" := "config"]}; {["type" := "sample"]} ]
    "registration"
    [ (Some "audit", failing_hook); (None, ok_hook) ]
    [ (Some "report", ok_post_hook); (Some "", failing_post_hook) ]
    failing_process 1.

(** One rendering of the priority levels. *)
Definition priority_format (p : TaskPriority) : string :=
  match p with
  | HIGH => "high"
  | NORMAL => "normal"
  | LOW => "low"
  end.

Definition sample : Task :=
  mkTask "t1" {["type" := "sample"; "kind" := "raw"]}
    {["sample" := Res (LocalResource "sample.exe" None "MZ"); "note" := Plain "mine"]}
    ∅ NORMAL None 0 false.

Definition unwanted : Task :=
  mkTask "t2" {["type" := "report"]} ∅ ∅ LOW None 0 false.

Definition parent : Task :=
  mkTask "p0" {["type" := "archive"]} ∅
    {["case" := Plain "case-7"; "note" := Plain "inherited"]}
    HIGH None 0 false.

Definition empty_redis : Redis := mkRedis ∅ ∅ ∅ ∅.

(** Nothing in the broker, no current task. *)
Definition idle : World nat := mkWorld empty_redis [] [] 1700000000 None false 0%nat.

(** The service is handling [parent]. *)
Definition busy : World nat :=
  mkWorld empty_redis [] [] 1700000000 (Some parent) false 0%nat.

(** The records of [sample] and [unwanted] are in the broker. *)
Definition stocked : World nat :=
  mkWorld
    (mkRedis {["karton.task:t1" := TaskRecord sample; "karton.task:t2" := TaskRecord unwanted]}
       ∅ {["karton.test" := "registration"]} ∅)
    [] [] 1700000000 None false 0%nat.

(** One task id waits in the legacy queue and one in the HIGH queue. *)
Definition two_queues : World nat :=
  mkWorld
    (mkRedis ∅
       {["karton.test" := ["from-legacy"];
         "karton.queue.high:karton.test" := ["from-high"]]}
       {["karton.test" := "registration"]} ∅)
    [] [] 1700000000 None false 0%nat.

(** The queue holds the id of a task whose record is not a serialized task,
    followed by the id of a well-formed one. *)
Definition malformed_first : World nat :=
  mkWorld
    (mkRedis {["karton.task:bad" := Garbage "{not json"; "karton.task:t1" := TaskRecord sample]}
       {["karton.queue.normal:karton.test" := ["bad"; "t1"]]}
       ∅ ∅)
    [] [] 1700000000 None false 0%nat.

End Demo.

(** Further services and worlds. *)
Module Cases.
Import Demo.

(** User code that is interrupted: the exception is no [Exception]. *)
Definition interrupted_process : Task -> nat -> CallResult nat :=
  fun t n => mkCallResult (Some KeyboardInterrupt) t (S n).
Definition interrupted_hook : PreHook nat :=
  fun t n => mkCallResult (Some KeyboardInterrupt) t (S n).

(** [service] with a handler that is interrupted. *)
Definition interrupted_service : Service nat :=
  mkService "karton.test" "karton"
    [ {["type" := "config"]}; {["type" := "sample"]} ]
    "registration"
    [ (Some "audit", failing_hook); (None, ok_hook) ]
    [ (Some "report", ok_post_hook) ]
    interrupted_process 1.

(** [service] with a pre-hook that is interrupted, between two others. *)
Definition guarded_service : Service nat :=
  mkService "karton.test" "karton"
    [ {["type" := "config"]}; {["type" := "sample"]} ]
    "registration"
    [ (Some "audit", failing_hook); (Some "gate", interrupted_hook); (None, ok_hook) ]
    [ (Some "report", ok_post_hook) ]
    failing_process 1.

(** [stocked] with a broker that fails the next call. *)
Definition unreachable : World nat :=
  with_faults [Some (Exc "ConnectionError" "broker down")] stocked.

(** The double quote. *)
Definition dq : string := String (Ascii.ascii_of_nat 34) "".

(** The text of a log entry whose task field is a string holding JSON. *)
Definition task_entry : string :=
  "{" +:+ dq +:+ "task" +:+ dq +:+ ": " +:+ dq +:+ "42" +:+ dq +:+ "}".

(** A decoder that knows four texts. *)
Definition json_loads (text : string) : option Json :=
  if bool_decide (text = "42") then Some (JNumber "42")
  else if bool_decide (text = "{}") then Some (JObject ∅)
  else if bool_decide (text = "[]") then Some (JArray [])
  else if bool_decide (text = task_entry) then Some (JObject {["task" := JString "42"]})
  else None.

(** Log consumers that count the events they are handed. *)
Definition counting_logger : LogService nat :=
  mkLogService "karton.logger" (fun _ n => mkLogCall None (S n) false).
Definition interrupted_logger : LogService nat :=
  mkLogService "karton.logger" (fun _ n => mkLogCall (Some KeyboardInterrupt) (S n) false).
Definition stopping_logger : LogService nat :=
  mkLogService "karton.logger"
    (fun _ n => mkLogCall (Some (Exc "RuntimeError" "disk full")) (S n) true).

(** Four entries wait in the log queue: the second is no JSON and the third
    is a number. *)
Definition logs_waiting : World nat :=
  mkWorld
    (mkRedis ∅ {["karton.logs" := [task_entry; "{not json"; "42"; "{}"]]} ∅ ∅)
    [] [] 1700000000 None false 0%nat.

End Cases.

(** * Properties *)

Section Properties.
Context {U : Type}.
Implicit Types (w : World U) (c : Service U).

Lemma bind_run {A B} (m : Py U A) (k : A -> Py U B) w :
  bind m k w =
  match result (m w) with
  | Returns a => after (events (m w)) (k a (final (m w)))
  | Raises e => mkOutcome (Raises e) (final (m w)) (events (m w))
  end.
Proof. reflexivity. Qed.

Lemma transport_through {A} (op : World U -> A * World U) ev w :
  faults w = [] ->
  transport op ev w = mkOutcome (Returns (op w).1) (op w).2 [ev (op w).1].
Proof. intros H. unfold transport. by rewrite H. Qed.

Lemma transport_cases {A} (op : World U -> A * World U) ev w :
  (exists e, result (transport op ev w) = Raises e /\ events (transport op ev w) = [])
  \/ (exists a, result (transport op ev w) = Returns a
                /\ events (transport op ev w) = [ev a]).
Proof.
  unfold transport. destruct (faults w) as [|[e|] rest]; simpl; eauto.
Qed.

Lemma filter_local_cons (nr : string * Resource) rest :
  filter (fun r => is_LocalResource r = true) ((nr :: rest).*2) =
  (if is_LocalResource nr.2 then [nr.2] else []) ++
  filter (fun r => is_LocalResource r = true) (rest.*2).
Proof.
  rewrite fmap_cons, filter_cons. destruct (is_LocalResource nr.2) eqn:E.
  - rewrite decide_True by done. done.
  - rewrite decide_False; [done|]. congruence.
Qed.

Lemma uploads_prefix (nrs : list (string * Resource)) w :
  let o := for_each nrs (fun nr => if is_LocalResource nr.2 then upload nr.2 else mret tt) w in
  events o `prefix_of` (EvUpload <$> filter (fun r => is_LocalResource r = true) nrs.*2)
  /\ (result o = Returns tt ->
      events o = EvUpload <$> filter (fun r => is_LocalResource r = true) nrs.*2)
  /\ (faults w = [] -> result o = Returns tt /\ faults (final o) = []
                       /\ rs (final o) = rs w /\ current_task (final o) = current_task w).
Proof.
  revert w. induction nrs as [|nr rest IH]; intros w.
  - simpl. split; [done|]. split; [done|]. done.
  - rewrite filter_local_cons.
    change (for_each (nr :: rest) ?b w) with (bind (b nr) (fun _ => for_each rest b) w).
    cbv zeta. rewrite bind_run. cbv beta.
    set (body := fun nr : string * Resource => _) in *.
    destruct (is_LocalResource nr.2) eqn:E.
    + unfold upload, transport.
      destruct (faults w) as [|[e|] fs] eqn:F; cbn [result events final after fst snd].
      * specialize (IH (with_minio (minio w ++ [nr.2]) w)).
        cbv zeta in IH. destruct IH as (IH1 & IH2 & IH3).
        split; [|split].
        -- rewrite fmap_app. by apply prefix_app.
        -- intros H. rewrite fmap_app. by rewrite IH2.
        -- intros _. apply IH3. done.
      * split; [apply prefix_nil|]. split; [done|done].
      * specialize (IH (with_minio (minio (with_faults fs w) ++ [nr.2]) (with_faults fs w))).
        cbv zeta in IH. destruct IH as (IH1 & IH2 & IH3).
        split; [|split].
        -- rewrite fmap_app. by apply prefix_app.
        -- intros H. rewrite fmap_app. by rewrite IH2.
        -- done.
    + cbn [result events final after fst snd mret Py_ret ret app].
      apply IH.
Qed.

Lemma uid_complete_task c cur now task : uid (complete_task c cur now task) = uid task.
Proof. unfold complete_task. by destruct cur. Qed.


Lemma performs_bind {A B} (m : Py U A) (k : A -> Py U B) w E1 E2 :
  performs (m w) E1 ->
  (forall a, result (m w) = Returns a -> performs (k a (final (m w))) E2) ->
  performs (bind m k w) (E1 ++ E2).
Proof.
  intros [P1 R1] Hk. rewrite bind_run. destruct (result (m w)) as [a|e] eqn:E.
  - destruct (Hk a eq_refl) as [P2 R2]. rewrite (R1 a eq_refl). split.
    + by apply prefix_app.
    + intros b Hb. cbn in *. by rewrite (R2 b Hb).
  - split; cbn; [|done]. by apply prefix_app_r.
Qed.

Lemma performs_transport {A} (op : World U -> A * World U) ev e w :
  (forall a, ev a = e) -> performs (transport op ev w) [e].
Proof.
  intros He. unfold transport.
  destruct (faults w) as [|[x|] rest]; split; cbn; rewrite ?He; try done.
  apply prefix_nil.
Qed.

Lemma performs_uploads (nrs : list (string * Resource)) w :
  performs (for_each nrs (fun nr => if is_LocalResource nr.2 then upload nr.2 else mret tt) w)
    (EvUpload <$> filter (fun r => is_LocalResource r = true) nrs.*2).
Proof.
  destruct (uploads_prefix nrs w) as (H1 & H2 & _). split; [done|].
  intros []. done.
Qed.

Lemma rs_set_through k v w :
  faults w = [] ->
  rs_set k v w =
  mkOutcome (Returns tt) (with_rs (with_kv (<[k := v]> (kv (rs w))) (rs w)) w) [EvSet k v].
Proof. intros F. unfold rs_set. by rewrite transport_through. Qed.

Lemma rs_rpush_through k v w :
  faults w = [] ->
  rs_rpush k v w =
  mkOutcome (Returns tt)
    (with_rs (with_lists (<[k := default [] (lists (rs w) !! k) ++ [v]]> (lists (rs w)))
                (rs w)) w)
    [EvRPush k v].
Proof. intros F. unfold rs_rpush. by rewrite transport_through. Qed.

Lemma rs_hincrby_through name k n w :
  faults w = [] ->
  rs_hincrby name k n w =
  mkOutcome (Returns tt)
    (with_rs (with_counters
                (<[(name, k) := default 0 (counters (rs w) !! (name, k)) + n]>
                   (counters (rs w))) (rs w)) w)
    [EvHincrby name k n].
Proof. intros F. unfold rs_hincrby. by rewrite transport_through. Qed.

Lemma declare_through t st ident w :
  faults w = [] ->
  declare_task_state t st ident w = mkOutcome (Returns tt) w [EvDeclare t st ident].
Proof. intros F. unfold declare_task_state. by rewrite transport_through. Qed.

Lemma rs_get_through k w :
  faults w = [] ->
  rs_get k w = mkOutcome (Returns (kv (rs w) !! k)) w [EvGet k].
Proof. intros F. unfold rs_get. by rewrite transport_through. Qed.

Lemma send_task_through c task w :
  faults w = [] ->
  let t' := complete_task c (current_task w) (clock w) task in
  let o := send_task c task w in
  result o = Returns true
  /\ kv (rs (final o)) = <[TASK_PREFIX +:+ uid t' := serialize t']> (kv (rs w))
  /\ lists (rs (final o)) =
       <[TASKS_QUEUE := default [] (lists (rs w) !! TASKS_QUEUE) ++ [uid t']]> (lists (rs w))
  /\ counters (rs (final o)) =
       <[(METRICS_PRODUCED, identity c) :=
           default 0 (counters (rs w) !! (METRICS_PRODUCED, identity c)) + 1]>
         (counters (rs w))
  /\ binds (rs (final o)) = binds (rs w)
  /\ current_task (final o) = current_task w.
Proof.
  intros F t' o. subst o. unfold send_task.
  unfold mbind, Py_bind, mret, Py_ret.
  rewrite bind_run. cbn [log result events final after].
  rewrite bind_run. cbn [get_current_task result events final after].
  rewrite bind_run. cbn [time_time result events final after].
  fold t'. rewrite bind_run, rs_set_through by exact F.
  cbn [result events final after]. rewrite bind_run.
  match goal with |- context [for_each ?l ?b ?w0] =>
    pose proof (uploads_prefix l w0) as Hu; cbv zeta in Hu; unfold mret, Py_ret in Hu;
    set (ou := for_each l b w0) in * end.
  destruct Hu as (_ & _ & Hu). destruct Hu as (Hr & Hf & Hrs & Hct); [exact F|].
  clearbody ou. destruct ou as [ru wu eu]. simpl in Hr, Hf, Hrs, Hct. subst ru.
  cbn [after result events final].
  rewrite bind_run, rs_rpush_through by exact Hf.
  cbn [after result events final].
  rewrite bind_run, rs_hincrby_through by exact Hf.
  simpl. rewrite Hrs, Hct. simpl. done.
Qed.


Lemma queue_name_not_unrouted pf p ident : queue_name pf p ident <> TASKS_QUEUE.
Proof. unfold queue_name, TASKS_QUEUE. simpl. discriminate. Qed.

(** C4, as amended. [send_task] pushes the task id at the tail of the single
    unrouted queue ["karton.tasks"], whatever the task's priority; every
    other list of the broker, the per-identity priority queues included, is
    left as it was. *)
Theorem send_task_pushes_to_unrouted_queue c task w :
  faults w = [] ->
  let o := send_task c task w in
  result o = Returns true
  /\ lists (rs (final o)) !! TASKS_QUEUE
     = Some (default [] (lists (rs w) !! TASKS_QUEUE) ++ [uid task])
  /\ (forall k, k <> TASKS_QUEUE -> lists (rs (final o)) !! k = lists (rs w) !! k)
  /\ (forall pf p ident,
        lists (rs (final o)) !! queue_name pf p ident
        = lists (rs w) !! queue_name pf p ident).
Proof.
  intros F o. destruct (send_task_through c task w F) as (Hr & _ & Hl & _).
  fold o in Hr, Hl. rewrite uid_complete_task in Hl.
  split; [exact Hr|]. rewrite Hl. split; [|split].
  - apply lookup_insert_eq.
  - intros k Hk. by apply lookup_insert_ne.
  - intros pf p ident. apply lookup_insert_ne. apply not_eq_sym, queue_name_not_unrouted.
Qed.

(** C6. When a current task is set, the record that [send_task] writes has
    the current task as parent and the current task's priority, whatever the
    caller had set; its payload keeps every field of the new task and takes
    from the current task's persistent payload the fields the new task does
    not have (values after the bucket of local resources was filled in). *)
Theorem send_task_inherits_from_current_task c task cur w :
  current_task w = Some cur ->
  faults w = [] ->
  let o := send_task c task w in
  exists t',
    result o = Returns true
    /\ kv (rs (final o)) !! (TASK_PREFIX +:+ uid task) = Some (TaskRecord t')
    /\ uid t' = uid task
    /\ parent_uid t' = Some (uid cur)
    /\ priority t' = priority cur
    /\ (forall k v, payload task !! k = Some v ->
         payload t' !! k = Some (ensure_bucket (minio_bucket c) v))
    /\ (forall k, payload task !! k = None ->
         payload t' !! k = ensure_bucket (minio_bucket c) <$> payload_persistent cur !! k).
Proof.
  intros Hc F o. destruct (send_task_through c task w F) as (Hr & Hk & _).
  fold o in Hr, Hk. rewrite Hc in Hk. rewrite uid_complete_task in Hk.
  exists (complete_task c (Some cur) (clock w) task).
  split; [exact Hr|]. split; [rewrite Hk; apply lookup_insert_eq|].
  split; [apply uid_complete_task|]. split; [reflexivity|]. split; [reflexivity|].
  unfold complete_task. cbn [payload with_payload with_headers with_last_update
    with_priority merge_persistent_payload with_payload_persistent set_task_parent
    with_parent_uid].
  split.
  - intros k v Hv. rewrite lookup_fmap. erewrite lookup_union_Some_l by exact Hv. done.
  - intros k Hv. rewrite lookup_fmap. by rewrite lookup_union_r.
Qed.

(** C1, on the code. When the unit of work raises, [continue_asynchronic]
    lets the exception through at once and does nothing more: the world is
    the one the unit of work left, where the current task is still the one
    that was swapped in unless the unit of work itself changed it, and the
    effects are the one made on entry followed by those of the unit of work,
    so the scope neither restores the previous current task nor declares
    FINISHED, whatever [finish] says. *)
Theorem continue_asynchronic_raise_skips_exit c task finish (body : Py U unit) e w :
  let w1 := with_current_task (Some task) w in
  result (body w1) = Raises e ->
  let o := continue_asynchronic c task finish body w in
  result o = Raises e
  /\ final o = final (body w1)
  /\ events o = EvLogSetTask (Some task) :: events (body w1).
Proof.
  intros w1 H o. subst o. unfold continue_asynchronic.
  unfold mbind, Py_bind, mret, Py_ret.
  rewrite bind_run. cbn [get_current_task result events final after].
  rewrite bind_run. cbn [set_current_task result events final after].
  rewrite bind_run. cbn [get_current_task result events final after].
  rewrite bind_run. cbn [log_handler_set_task result events final after].
  rewrite bind_run. fold w1. rewrite H. by repeat split.
Qed.

Lemma the_current_task_run t w :
  current_task w = Some t -> the_current_task w = mkOutcome (Returns t) w [].
Proof. intros H. unfold the_current_task. by rewrite H. Qed.

Lemma continue_asynchronic_returns c task finish (body : Py U unit) w :
  let w1 := with_current_task (Some task) w in
  result (body w1) = Returns tt ->
  faults (final (body w1)) = [] ->
  current_task (final (body w1)) = Some task ->
  let o := continue_asynchronic c task finish body w in
  result o = Returns tt
  /\ current_task (final o) = current_task w
  /\ events o = [EvLogSetTask (Some task)] ++ events (body w1)
                ++ (if finish then [EvDeclare task FINISHED (identity c)] else [])
                ++ [EvLogSetTask (current_task w)].
Proof.
  intros w1 Hr Hf Hc o. subst o. unfold continue_asynchronic.
  unfold mbind, Py_bind, mret, Py_ret.
  rewrite bind_run. cbn [get_current_task result events final after].
  rewrite bind_run. cbn [set_current_task result events final after].
  rewrite bind_run. cbn [get_current_task result events final after].
  rewrite bind_run. cbn [log_handler_set_task result events final after].
  rewrite bind_run. fold w1. 
  set (ob := body w1) in *. clearbody ob. destruct ob as [rb wb eb].
  simpl in Hr, Hf, Hc. subst rb.
  cbn [result events final after]. rewrite bind_run.
  destruct finish.
  - rewrite bind_run, (the_current_task_run task) by exact Hc.
    cbn [result events final after]. rewrite declare_through by exact Hf.
    simpl. done.
  - simpl. done.
Qed.

(** *** Calls of user code *)


Lemma call_user_run f ev t w :
  current_task w = Some t ->
  call_user f ev w =
  mkOutcome (match cr_raised (f t (user w)) with
             | None => Returns tt
             | Some e => Raises e
             end)
    (user_step f t w) [ev t (cr_raised (f t (user w)))].
Proof.
  intros H. unfold call_user, mbind, Py_bind. rewrite bind_run.
  rewrite (the_current_task_run t) by exact H. reflexivity.
Qed.

Lemma guarded_call_run f ev (hd : exn -> Py U unit) lg t w :
  current_task w = Some t ->
  raises_only_Exception f ->
  (forall e w', hd e w' = mkOutcome (Returns tt) w' [lg]) ->
  try_except_Exception (call_user f ev) hd w =
  mkOutcome (Returns tt) (user_step f t w)
    (ev t (cr_raised (f t (user w)))
       :: match cr_raised (f t (user w)) with
          | None => []
          | Some _ => [lg]
          end).
Proof.
  intros H Hx Hh. unfold try_except_Exception. rewrite (call_user_run f ev t w H).
  cbn [result final events].
  destruct (cr_raised (f t (user w))) as [e|] eqn:E; [|reflexivity].
  rewrite (Hx _ _ _ E). rewrite Hh. reflexivity.
Qed.

Lemma failures_logged_quiet e l :
  hook_failed e = false -> failures_logged (e :: l) = failures_logged l.
Proof. intros H. simpl. by rewrite H. Qed.

Lemma failures_logged_failed e lg l :
  is_failure_log lg = true -> hook_failed lg = false ->
  failures_logged (e :: lg :: l) = failures_logged l.
Proof.
  intros H1 H2. cbn [failures_logged]. rewrite H1, H2.
  destruct (hook_failed e); simpl; by destruct (failures_logged l).
Qed.

Section Hooks.
Context {H X : Type}.
Variable f : H -> Task -> U -> CallResult U.
Variable ev : H -> Task -> option exn -> Event.
Variable hd : H -> exn -> Py U unit.
Variable lg : H -> Event.
Variable proj : Event -> option X.
Variable info : H -> X.
Variable act : Event -> bool.
Hypothesis hd_logs : forall h e w, hd h e w = mkOutcome (Returns tt) w [lg h].
Hypothesis lg_is_log : forall h, is_failure_log (lg h) = true.
Hypothesis lg_not_call : forall h, hook_failed (lg h) = false.
Hypothesis ev_failed : forall h t, hook_failed (ev h t None) = false.
Hypothesis proj_ev : forall h t r, proj (ev h t r) = Some (info h).
Hypothesis proj_lg : forall h, proj (lg h) = None.
Hypothesis act_ev : forall h t r, act (ev h t r) = true.
Hypothesis act_lg : forall h, act (lg h) = true.

Lemma run_hooks_spec (hooks : list H) :
    Forall (fun h => raises_only_Exception (f h)) hooks ->
    forall w t, current_task w = Some t ->
    let o := for_each hooks (fun h => try_except_Exception (call_user (f h) (ev h)) (hd h)) w in
    result o = Returns tt
    /\ omap proj (events o) = info <$> hooks
    /\ failures_logged (events o) = true
    /\ forallb act (events o) = true
    /\ is_Some (current_task (final o))
    /\ faults (final o) = faults w
    /\ rs (final o) = rs w
    /\ minio (final o) = minio w
    /\ shutdown (final o) = shutdown w.
Proof.
    induction 1 as [|h rest Hh Hrest IH]; intros w t Ht.
    - simpl. eauto 10.
    - cbv zeta.
      change (for_each (h :: rest) ?b w) with (bind (b h) (fun _ => for_each rest b) w).
      rewrite bind_run. cbv beta.
      rewrite (guarded_call_run (f h) (ev h) (hd h) (lg h) t w Ht Hh (hd_logs h)).
      cbn [result final events after].
      destruct (IH (user_step (f h) t w) (cr_task (f h t (user w))) eq_refl)
        as (R & P & L & A & C & F & S & M & D).
      cbv zeta in R, P, L, A, C, F, S, M, D.
      set (o := for_each rest _ _) in *. clearbody o.
      split; [exact R|]. split; [|split; [|split]].
      + cbn [omap list_omap app]. rewrite proj_ev.
        destruct (cr_raised (f h t (user w))); cbn [omap list_omap app];
          rewrite ?proj_lg, P; reflexivity.
      + destruct (cr_raised (f h t (user w))); cbn [app].
        * rewrite failures_logged_failed; auto.
        * rewrite failures_logged_quiet; auto.
      + destruct (cr_raised (f h t (user w))); cbn [app forallb];
          rewrite ?act_ev, ?act_lg, A; reflexivity.
      + repeat split; try assumption.
Qed.
End Hooks.



Lemma run_pre_hooks_spec c w t :
  Forall (fun h => raises_only_Exception h.2) (_pre_hooks c) ->
  current_task w = Some t ->
  let o := _run_pre_hooks c w in
  result o = Returns tt
  /\ pre_hook_calls (events o) = (_pre_hooks c).*1
  /\ failures_logged (events o) = true
  /\ forallb is_pre_hook_activity (events o) = true
  /\ is_Some (current_task (final o))
  /\ faults (final o) = faults w
  /\ rs (final o) = rs w
  /\ minio (final o) = minio w
  /\ shutdown (final o) = shutdown w.
Proof.
  intros Hx Ht.
  apply (run_hooks_spec (fun h : option string * PreHook U => h.2)
           (fun h => EvPreHook h.1)
           (fun h _ => if truthy h.1
                       then log EXCEPTION "Pre-hook (%s) failed" [ArgStr (default "" h.1)]
                       else log EXCEPTION "Pre-hook failed" [])
           pre_hook_failure_log _ fst is_pre_hook_activity) with (t := t); try done.
  all: intros h; unfold pre_hook_failure_log; by destruct (truthy h.1).
Qed.

Lemma run_post_hooks_spec c exc w t :
  Forall (fun h => raises_only_Exception (fun t => h.2 t exc)) (_post_hooks c) ->
  current_task w = Some t ->
  let o := _run_post_hooks c exc w in
  result o = Returns tt
  /\ post_hook_calls (events o) = (fun h => (h.1, exc)) <$> _post_hooks c
  /\ failures_logged (events o) = true
  /\ forallb is_post_hook_activity (events o) = true
  /\ is_Some (current_task (final o))
  /\ faults (final o) = faults w
  /\ rs (final o) = rs w
  /\ minio (final o) = minio w
  /\ shutdown (final o) = shutdown w.
Proof.
  intros Hx Ht.
  apply (run_hooks_spec (fun (h : option string * PostHook U) t => h.2 t exc)
           (fun h t => EvPostHook h.1 t exc)
           (fun h _ => if truthy h.1
                       then log EXCEPTION "Post-hook (%s) failed" [ArgStr (default "" h.1)]
                       else log EXCEPTION "Post-hook failed" [])
           post_hook_failure_log _ (fun h => (h.1, exc)) is_post_hook_activity)
    with (t := t); try done.
  all: intros h; unfold post_hook_failure_log; by destruct (truthy h.1).
Qed.


Lemma call_process_run c t w :
  current_task w = Some t ->
  call_process c w =
  mkOutcome (match cr_raised (process c t (user w)) with
             | None => Returns tt
             | Some e => Raises e
             end)
    (user_step (process c) t w)
    [EvProcess (process_args c t) (cr_raised (process c t (user w)))].
Proof.
  intros H. unfold call_process, process_args.
  destruct (process_arg_num c); by rewrite (call_user_run _ _ t w H).
Qed.

Lemma process_with_post_hooks_spec c w t :
  current_task w = Some t ->
  raises_only_Exception (process c) ->
  Forall (fun h => forall exc, raises_only_Exception (fun t => h.2 t exc)) (_post_hooks c) ->
  let r := cr_raised (process c t (user w)) in
  let o := process_with_post_hooks c w in
  exists post,
    events o = EvProcess (process_args c t) r :: post
    /\ result o = match r with None => Returns tt | Some e => Raises e end
    /\ post_hook_calls post = (fun h => (h.1, r)) <$> _post_hooks c
    /\ failures_logged post = true
    /\ forallb is_post_hook_activity post = true
    /\ is_Some (current_task (final o))
    /\ faults (final o) = faults w
    /\ rs (final o) = rs w
    /\ minio (final o) = minio w
    /\ shutdown (final o) = shutdown w.
Proof.
  intros Ht Hp Hh r o. subst o. unfold process_with_post_hooks.
  rewrite (call_process_run c t w Ht). cbn [result final events]. fold r.
  assert (Hh' : Forall (fun h => raises_only_Exception (fun t => h.2 t r)) (_post_hooks c)).
  { eapply Forall_impl; [exact Hh|]. intros h Hq. apply Hq. }
  destruct (run_post_hooks_spec c r (user_step (process c) t w)
              (cr_task (process c t (user w))) Hh' eq_refl)
    as (R & P & L & A & C & F & S & M & D).
  cbv zeta in R, P, L, A, C, F, S, M, D.
  destruct r as [e|] eqn:E.
  - rewrite (Hp _ _ _ E).
    set (o := _run_post_hooks _ _ _) in *. clearbody o. rewrite R.
    exists (events o). cbn [result final events app]. eauto 12.
  - set (o := _run_post_hooks _ _ _) in *. clearbody o.
    exists (events o). cbn [result final events after app]. eauto 12.
Qed.

Lemma fetch_task_run data t w :
  faults w = [] ->
  kv (rs w) !! ("karton.task:" +:+ data) = Some (TaskRecord t) ->
  fetch_task data w = mkOutcome (Returns t) w [EvGet ("karton.task:" +:+ data)].
Proof.
  intros F K. unfold fetch_task, mbind, Py_bind. rewrite bind_run.
  rewrite rs_get_through by exact F. cbn [result final events]. rewrite K. reflexivity.
Qed.


Lemma except_block_run c t w :
  faults w = [] -> current_task w = Some t ->
  except_block c w =
  mkOutcome (Returns tt) (bump METRICS_ERRORED (identity c) w)
    [EvHincrby METRICS_ERRORED (identity c) 1;
     EvLog EXCEPTION "Failed to process task - %s" [ArgStr (uid t)]].
Proof.
  intros F C. unfold except_block, mbind, Py_bind.
  rewrite bind_run, rs_hincrby_through by exact F. cbn [result final events].
  fold (bump METRICS_ERRORED (identity c) w).
  rewrite bind_run, (the_current_task_run t) by exact C. reflexivity.
Qed.

Lemma finally_block_run c t w :
  faults w = [] -> current_task w = Some t ->
  finally_block c w =
  mkOutcome (Returns tt) (bump METRICS_CONSUMED (identity c) w)
    (EvHincrby METRICS_CONSUMED (identity c) 1
       :: if is_asynchronic t then [] else [EvDeclare t FINISHED (identity c)]).
Proof.
  intros F C. unfold finally_block, mbind, Py_bind.
  rewrite bind_run, rs_hincrby_through by exact F. cbn [result final events].
  fold (bump METRICS_CONSUMED (identity c) w).
  rewrite bind_run, (the_current_task_run t) by exact C. cbn [result final events].
  destruct (is_asynchronic t); cbn [negb]; [reflexivity|].
  rewrite declare_through by exact F. reflexivity.
Qed.

Lemma try_finally_run {A} (body : Py U A) fin w wf evf :
  fin (final (body w)) = mkOutcome (Returns tt) wf evf ->
  try_finally body fin w = mkOutcome (result (body w)) wf (events (body w) ++ evf).
Proof. intros H. unfold try_finally. rewrite H. reflexivity. Qed.

Lemma try_except_Exception_run {A} (body : Py U A) hd w :
  try_except_Exception body hd w =
  match result (body w) with
  | Returns _ => body w
  | Raises e => if is_Exception e then after (events (body w)) (hd e (final (body w)))
                else body w
  end.
Proof. reflexivity. Qed.

Lemma try_block_spec c w t :
  faults w = [] ->
  current_task w = Some t ->
  Forall (fun h => raises_only_Exception h.2) (_pre_hooks c) ->
  Forall (fun h => forall exc, raises_only_Exception (fun t => h.2 t exc)) (_post_hooks c) ->
  raises_only_Exception (process c) ->
  exists pre args r post w3 t3,
    try_block c w =
      mkOutcome (match r with None => Returns tt | Some e => Raises e end) w3
        ([EvLog INFO "Received new task - %s" [ArgStr (uid t)];
          EvDeclare t STARTED (identity c)]
         ++ pre ++ [EvProcess args r] ++ post
         ++ match r with
            | None => [EvLog INFO "Task done - %s" [ArgStr (uid t3)]]
            | Some _ => []
            end)
    /\ (forall e, r = Some e -> is_Exception e = true)
    /\ current_task w3 = Some t3 /\ faults w3 = []
    /\ pre_hook_calls pre = (_pre_hooks c).*1
    /\ forallb is_pre_hook_activity pre = true
    /\ failures_logged pre = true
    /\ post_hook_calls post = (fun h => (h.1, r)) <$> _post_hooks c
    /\ forallb is_post_hook_activity post = true
    /\ failures_logged post = true.
Proof.
  intros F1 C1 Hpre Hpost Hproc. unfold try_block, mbind, Py_bind.
  rewrite bind_run, (the_current_task_run t w C1). cbn [result final events after].
  rewrite bind_run. cbn [log result final events after].
  rewrite bind_run, (the_current_task_run t w C1). cbn [result final events after].
  rewrite bind_run, declare_through by exact F1. cbn [result final events after].
  rewrite bind_run.
  destruct (run_pre_hooks_spec c w t Hpre C1) as (R & P & L & A & [t2 C2] & F2 & _).
  cbv zeta in R, P, L, A, C2, F2.
  set (o2 := _run_pre_hooks c w) in *. clearbody o2.
  destruct o2 as [r2 w2 pre]. cbn [result final events] in *. subst r2.
  rewrite bind_run.
  destruct (process_with_post_hooks_spec c w2 t2 C2 Hproc Hpost)
    as (post & E3 & R3 & P3 & L3 & A3 & [t3 C3] & F3 & _).
  cbv zeta in E3, R3, P3, L3, A3, C3, F3.
  set (r := cr_raised (process c t2 (user w2))) in *.
  assert (Hr : forall e, r = Some e -> is_Exception e = true)
    by (intros e He; exact (Hproc _ _ _ He)).
  clearbody r.
  set (o3 := process_with_post_hooks c w2) in *. clearbody o3.
  destruct o3 as [r3 w3 ev3]. cbn [result final events] in *. subst r3 ev3.
  rewrite F1 in F2. rewrite F2 in F3.
  exists pre, (process_args c t2), r, post, w3, t3.
  split; [|auto 12].
  destruct r as [e|]; cbn [result final events].
  - unfold after; cbn [result final events app]. by rewrite app_nil_r.
  - rewrite bind_run, (the_current_task_run t3 w3 C3).
    unfold after, log; cbn [result final events app]. reflexivity.
Qed.

Lemma internal_process_accepts c data t b w :
  faults w = [] ->
  kv (rs w) !! ("karton.task:" +:+ data) = Some (TaskRecord t) ->
  find (matches_bind t) (filters c) = Some b ->
  internal_process c data w =
  after [EvGet ("karton.task:" +:+ data); EvLogSetTask (Some t)]
    (try_finally (try_except_Exception (try_block c) (fun _ => except_block c))
       (finally_block c) (with_current_task (Some t) w)).
Proof.
  intros F K Hb. unfold internal_process.
  unfold mbind, Py_bind, mret, Py_ret.
  rewrite bind_run, (fetch_task_run data t w F K). cbn [result final events after].
  rewrite bind_run. cbn [set_current_task result final events after].
  rewrite bind_run. cbn [get_current_task result final events after].
  rewrite bind_run. cbn [log_handler_set_task result final events after current_task
                           with_current_task].
  rewrite bind_run, (the_current_task_run t) by reflexivity.
  cbn [result final events after]. rewrite Hb. reflexivity.
Qed.


(** *** Invariants kept by a computation *)


Section Keeps.
Variable I : World U -> Prop.
Variable P : Event -> Prop.

Lemma keeps_ret {A} (a : A) : keeps I P (ret a).
Proof. intros w Hw. by split. Qed.

Lemma keeps_bind {A B} (m : Py U A) (k : A -> Py U B) :
    keeps I P m -> (forall a, keeps I P (k a)) -> keeps I P (bind m k).
Proof.
    intros Hm Hk w Hw. rewrite bind_run. destruct (Hm w Hw) as [I1 P1].
    destruct (result (m w)) as [a|e]; [|by split].
    destruct (Hk a _ I1) as [I2 P2]. split; [exact I2|].
    cbn [after events]. by apply Forall_app.
Qed.

Lemma keeps_try_except {A} (body : Py U A) hd :
    keeps I P body -> (forall e, keeps I P (hd e)) ->
    keeps I P (try_except_Exception body hd).
Proof.
    intros Hb Hh w Hw. rewrite try_except_Exception_run. destruct (Hb w Hw) as [I1 P1].
    destruct (result (body w)) as [a|e]; [by split|].
    destruct (is_Exception e); [|by split].
    destruct (Hh e _ I1) as [I2 P2]. split; [exact I2|].
    cbn [after events]. by apply Forall_app.
Qed.

Lemma keeps_for_each {A} (xs : list A) body :
    (forall x, keeps I P (body x)) -> keeps I P (for_each xs body).
Proof.
    intros Hb. induction xs as [|x rest IH]; [apply keeps_ret|].
    apply (keeps_bind (body x) (fun _ => for_each rest body)); [apply Hb|]. intros _. exact IH.
Qed.

Lemma keeps_log lvl fmt args : P (EvLog lvl fmt args) -> keeps I P (log lvl fmt args).
Proof. intros HP w Hw. split; [exact Hw|]. by repeat constructor. Qed.

Lemma keeps_the_current_task : keeps I P the_current_task.
Proof. intros w Hw. unfold the_current_task. by destruct (current_task w). Qed.

Lemma keeps_transport {A} (op : World U -> A * World U) ev :
    (forall w, I w -> faults w = []) ->
    (forall w, I w -> I (op w).2) ->
    (forall a, P (ev a)) ->
    keeps I P (transport op ev).
Proof.
    intros HF Hop Hev w Hw. rewrite transport_through by auto.
    split; [by apply Hop|]. by repeat constructor.
Qed.

Lemma keeps_call_user f ev :
    (forall w t, I w -> I (user_step f t w)) ->
    (forall t r, P (ev t r)) ->
    keeps I P (call_user f ev).
Proof.
    intros Hs Hev w Hw. unfold call_user, mbind, Py_bind. rewrite bind_run.
    unfold the_current_task. destruct (current_task w) as [t|]; [|by split].
    split; [by apply Hs|]. by repeat constructor.
Qed.
End Keeps.


Lemma steady_user_step f t w : steady w -> steady (user_step f t w).
Proof. intros [F C]. split; [exact F|]. by eexists. Qed.

Lemma keeps_run_pre_hooks c : keeps (@steady U) not_finished (_run_pre_hooks c).
Proof.
  apply keeps_for_each. intros h. apply keeps_try_except.
  - apply keeps_call_user; [intros; by apply steady_user_step|done].
  - intros _. destruct (truthy h.1); by apply keeps_log.
Qed.

Lemma keeps_run_post_hooks c exc : keeps (@steady U) not_finished (_run_post_hooks c exc).
Proof.
  apply keeps_for_each. intros h. apply keeps_try_except.
  - apply keeps_call_user; [intros; by apply steady_user_step|done].
  - intros _. destruct (truthy h.1); by apply keeps_log.
Qed.

Lemma keeps_call_process c : keeps (@steady U) not_finished (call_process c).
Proof.
  unfold call_process. destruct (process_arg_num c);
    (apply keeps_call_user; [intros; by apply steady_user_step|done]).
Qed.

Lemma keeps_process_with_post_hooks c :
  keeps (@steady U) not_finished (process_with_post_hooks c).
Proof.
  intros w Hw. unfold process_with_post_hooks. cbv zeta.
  destruct (keeps_call_process c w Hw) as [I1 P1].
  destruct (result (call_process c w)) as [a|e].
  - destruct (keeps_run_post_hooks c None _ I1) as [I2 P2]. split; [exact I2|].
    cbn [after events]. by apply Forall_app.
  - destruct (is_Exception e); [|by split].
    destruct (keeps_run_post_hooks c (Some e) _ I1) as [I2 P2].
    destruct (result (_run_post_hooks c (Some e) (final (call_process c w))));
      (split; [exact I2|]; cbn [events]; by apply Forall_app).
Qed.

Lemma keeps_declare_started t ident :
  keeps (@steady U) not_finished (declare_task_state t STARTED ident).
Proof. apply keeps_transport; [by intros w []|by intros w []|done]. Qed.

Lemma keeps_hincrby name key n : keeps (@steady U) not_finished (rs_hincrby name key n).
Proof. apply keeps_transport; [by intros w []|by intros w []|done]. Qed.

Lemma keeps_try_block c : keeps (@steady U) not_finished (try_block c).
Proof.
  unfold try_block, mbind, Py_bind.
  apply keeps_bind; [apply keeps_the_current_task|intros t].
  apply keeps_bind; [by apply keeps_log|intros _].
  apply keeps_bind; [apply keeps_the_current_task|intros t'].
  apply keeps_bind; [apply keeps_declare_started|intros _].
  apply keeps_bind; [apply keeps_run_pre_hooks|intros _].
  apply keeps_bind; [apply keeps_process_with_post_hooks|intros _].
  apply keeps_bind; [apply keeps_the_current_task|intros t''].
  by apply keeps_log.
Qed.

Lemma keeps_except_block c : keeps (@steady U) not_finished (except_block c).
Proof.
  unfold except_block, mbind, Py_bind.
  apply keeps_bind; [apply keeps_hincrby|intros _].
  apply keeps_bind; [apply keeps_the_current_task|intros t].
  by apply keeps_log.
Qed.


(** *** Bind matching *)

Lemma find_first_match {A} (f : A -> bool) (l : list A) (x : A) :
  find f l = Some x ->
  exists pre post, l = pre ++ x :: post /\ f x = true /\ Forall (fun y => f y = false) pre.
Proof.
  induction l as [|y l IH]; [done|]. cbn [find]. destruct (f y) eqn:E.
  - intros [= ->]. exists [], l. by repeat split.
  - intros H. destruct (IH H) as (pre & post & -> & Hx & Hpre).
    exists (y :: pre), post. repeat split; [done|]. by constructor.
Qed.

Lemma find_no_match {A} (f : A -> bool) (l : list A) :
  Forall (fun y => f y = false) l -> find f l = None.
Proof. induction 1 as [|y l Hy _ IH]; [done|]. cbn [find]. by rewrite Hy. Qed.

Lemma reject_run c t w :
  faults w = [] -> current_task w = Some t ->
  reject c w =
  mkOutcome (Returns tt) w
    [EvLog INFO "Task rejected because binds are no longer valid." [];
     EvDeclare t FINISHED (identity c)].
Proof.
  intros F C. unfold reject, mbind, Py_bind.
  rewrite bind_run. cbn [log result final events].
  rewrite bind_run, (the_current_task_run t w C). cbn [result final events].
  rewrite declare_through by exact F. reflexivity.
Qed.

Lemma internal_process_rejects c data t w :
  faults w = [] ->
  kv (rs w) !! ("karton.task:" +:+ data) = Some (TaskRecord t) ->
  find (matches_bind t) (filters c) = None ->
  internal_process c data w =
  mkOutcome (Returns tt) (with_current_task (Some t) w)
    [EvGet ("karton.task:" +:+ data); EvLogSetTask (Some t);
     EvLog INFO "Task rejected because binds are no longer valid." [];
     EvDeclare t FINISHED (identity c)].
Proof.
  intros F K Hb. unfold internal_process.
  unfold mbind, Py_bind, mret, Py_ret.
  rewrite bind_run, (fetch_task_run data t w F K). cbn [result final events after].
  rewrite bind_run. cbn [set_current_task result final events after].
  rewrite bind_run. cbn [get_current_task result final events after].
  rewrite bind_run. cbn [log_handler_set_task result final events after current_task
                           with_current_task].
  rewrite bind_run, (the_current_task_run t) by reflexivity.
  cbn [result final events after]. rewrite Hb.
  rewrite (reject_run c t) by done. reflexivity.
Qed.

(** C10. For a fetched task that matches none of the binds, the effects of
    [internal_process] are the fetch, the log entries and the FINISHED
    declaration and nothing else (no STARTED, no hook, no handler, no
    counter); the world is the one before, with the current task set: the
    broker, its consumed and errored counters and the user's state are
    unchanged. *)
Theorem rejection_only_declares_finished c data t w :
  faults w = [] ->
  kv (rs w) !! ("karton.task:" +:+ data) = Some (TaskRecord t) ->
  Forall (fun b => matches_bind t b = false) (filters c) ->
  let o := internal_process c data w in
  result o = Returns tt
  /\ events o =
       [EvGet ("karton.task:" +:+ data); EvLogSetTask (Some t);
        EvLog INFO "Task rejected because binds are no longer valid." [];
        EvDeclare t FINISHED (identity c)]
  /\ final o = with_current_task (Some t) w
  /\ counters (rs (final o)) !! (METRICS_CONSUMED, identity c)
       = counters (rs w) !! (METRICS_CONSUMED, identity c)
  /\ counters (rs (final o)) !! (METRICS_ERRORED, identity c)
       = counters (rs w) !! (METRICS_ERRORED, identity c)
  /\ rs (final o) = rs w
  /\ user (final o) = user w.
Proof.
  intros F K Hb o. subst o.
  rewrite (internal_process_rejects c data t w F K (find_no_match _ _ Hb)). by repeat split.
Qed.

Lemma fetch_task_returns data t w :
  result (fetch_task data w) = Returns t ->
  kv (rs w) !! ("karton.task:" +:+ data) = Some (TaskRecord t)
  /\ current_task (final (fetch_task data w)) = current_task w.
Proof.
  unfold fetch_task, mbind, Py_bind. rewrite bind_run. unfold rs_get, transport.
  destruct (faults w) as [|[e|] rest]; cbn [result final events fst snd after rs kv
                                            with_faults current_task]; try done.
  all: destruct (kv (rs w) !! _) as [[t'|raw]|]; cbn; try done; by intros [= ->].
Qed.

Lemma fetch_task_events data w :
  Forall (fun e => is_process_call e = false) (events (fetch_task data w)).
Proof.
  unfold fetch_task, mbind, Py_bind. rewrite bind_run. unfold rs_get, transport.
  destruct (faults w) as [|[e|] rest]; cbn [result final events fst snd after]; try done.
  all: destruct (kv _ !! _) as [[t'|raw]|]; cbn; by repeat constructor.
Qed.

Lemma reject_events c w :
  Forall (fun e => is_process_call e = false) (events (reject c w)).
Proof.
  unfold reject, mbind, Py_bind.
  rewrite bind_run. cbn [log result final events after].
  rewrite bind_run. unfold the_current_task.
  destruct (current_task w) as [t|]; cbn [result final events after app];
    [|by repeat constructor].
  unfold declare_task_state, transport.
  destruct (faults w) as [|[e|] rest]; cbn; by repeat constructor.
Qed.

(** C7. If [internal_process] called the handler, the fetched task
    satisfies one of the binds, the first such bind in the declared order
    being the one that ends the search; and if the task satisfies none,
    [internal_process] declares FINISHED right after the fetch and returns
    without calling the handler. *)
Theorem handler_runs_only_on_match c data w :
  let o := internal_process c data w in
  (forall args r, EvProcess args r ∈ events o ->
     exists t pre b post,
       kv (rs w) !! ("karton.task:" +:+ data) = Some (TaskRecord t)
       /\ filters c = pre ++ b :: post
       /\ matches_bind t b = true
       /\ Forall (fun b' => matches_bind t b' = false) pre)
  /\ (forall t,
        faults w = [] ->
        kv (rs w) !! ("karton.task:" +:+ data) = Some (TaskRecord t) ->
        Forall (fun b => matches_bind t b = false) (filters c) ->
        result o = Returns tt
        /\ events o =
             [EvGet ("karton.task:" +:+ data); EvLogSetTask (Some t);
              EvLog INFO "Task rejected because binds are no longer valid." [];
              EvDeclare t FINISHED (identity c)]).
Proof.
  intros o. split.
  - intros args r Hin. subst o. unfold internal_process in Hin.
    unfold mbind, Py_bind, mret, Py_ret in Hin. rewrite bind_run in Hin.
    pose proof (fetch_task_events data w) as Hf.
    destruct (result (fetch_task data w)) as [t|e] eqn:R.
    + destruct (fetch_task_returns data t w R) as [K _]. exists t.
      cbn [after events] in Hin. apply elem_of_app in Hin as [Hin|Hin].
      { rewrite Forall_forall in Hf. by specialize (Hf _ Hin). }
      rewrite bind_run in Hin. cbn [set_current_task result final events after] in Hin.
      rewrite bind_run in Hin. cbn [get_current_task result final events after] in Hin.
      rewrite bind_run in Hin.
      cbn [log_handler_set_task result final events after current_task with_current_task]
        in Hin.
      rewrite bind_run, (the_current_task_run t) in Hin by reflexivity.
      cbn [result final events after app] in Hin.
      destruct (find (matches_bind t) (filters c)) as [b|] eqn:Hb.
      * destruct (find_first_match _ _ _ Hb) as (pre & post & E & Hm & Hpre).
        by exists pre, b, post.
      * apply elem_of_cons in Hin as [Hin|Hin]; [done|].
        pose proof (reject_events c (with_current_task (Some t) (final (fetch_task data w))))
          as Hr.
        rewrite Forall_forall in Hr. by specialize (Hr _ Hin).
    + cbn [events] in Hin. rewrite Forall_forall in Hf. by specialize (Hf _ Hin).
  - intros t F K Hb. subst o.
    rewrite (internal_process_rejects c data t w F K (find_no_match _ _ Hb)). by split.
Qed.

(** *** Polling *)


Lemma blpop_lists_skip l k rest :
  no_items l k -> blpop_lists l (k :: rest) = blpop_lists l rest.
Proof. intros [H|H]; cbn [blpop_lists]; by rewrite H. Qed.

Lemma blpop_lists_none l keys :
  Forall (no_items l) keys -> blpop_lists l keys = None.
Proof.
  induction 1 as [|k rest Hk _ IH]; [done|]. by rewrite blpop_lists_skip.
Qed.

Lemma rs_blpop_item keys w :
  faults w = [] ->
  result (rs_blpop keys w) =
  Returns (match blpop_lists (lists (rs w)) keys with
           | Some (k, x, _) => Some (k, x)
           | None => None
           end).
Proof.
  intros F. unfold rs_blpop. rewrite transport_through by exact F.
  cbn [result]. by destruct (blpop_lists _ _) as [[[k x] l']|].
Qed.

(** C2, as amended. On every wake the consumer polls the legacy queue (the
    one named after the identity) first, then HIGH, then NORMAL, then LOW:
    the id popped is the head of the first of these four lists that is not
    empty, and [None] when all are empty. *)
Theorem poll_order pf c w :
  faults w = [] ->
  let l := lists (rs w) in
  let id := identity c in
  let polled := result (rs_blpop (poll_keys pf c) w) in
  (forall x xs, l !! id = Some (x :: xs) -> polled = Returns (Some (id, x)))
  /\ (forall x xs, no_items l id ->
        l !! queue_name pf HIGH id = Some (x :: xs) ->
        polled = Returns (Some (queue_name pf HIGH id, x)))
  /\ (forall x xs, no_items l id -> no_items l (queue_name pf HIGH id) ->
        l !! queue_name pf NORMAL id = Some (x :: xs) ->
        polled = Returns (Some (queue_name pf NORMAL id, x)))
  /\ (forall x xs, no_items l id -> no_items l (queue_name pf HIGH id) ->
        no_items l (queue_name pf NORMAL id) ->
        l !! queue_name pf LOW id = Some (x :: xs) ->
        polled = Returns (Some (queue_name pf LOW id, x)))
  /\ (no_items l id -> no_items l (queue_name pf HIGH id) ->
      no_items l (queue_name pf NORMAL id) -> no_items l (queue_name pf LOW id) ->
      polled = Returns None)
  /\ (binds (rs w) !! id = Some (_registration c) ->
      exists rest,
        events (loop_body pf c w)
        = EvHget BINDS id
            :: EvBlpop (poll_keys pf c)
                 (match polled with Returns item => item | Raises _ => None end)
            :: rest).
Proof.
  intros F l id polled. subst polled. rewrite (rs_blpop_item _ w F). fold l.
  unfold poll_keys. fold id.
  split_and!.
  - intros x xs H. cbn [blpop_lists]. by rewrite H.
  - intros x xs H0 H. rewrite blpop_lists_skip by done.
    cbn [blpop_lists]. by rewrite H.
  - intros x xs H0 H1 H. rewrite !blpop_lists_skip by done.
    cbn [blpop_lists]. by rewrite H.
  - intros x xs H0 H1 H2 H. rewrite !blpop_lists_skip by done.
    cbn [blpop_lists]. by rewrite H.
  - intros H0 H1 H2 H3. rewrite blpop_lists_none; [done|].
    repeat (apply Forall_cons; split; [assumption|]). apply Forall_nil_2.
  - intros Hreg. unfold loop_body, mbind, Py_bind, mret, Py_ret.
    rewrite bind_run. unfold rs_hget_binds at 1 2 3. rewrite transport_through by exact F.
    cbn [result final events fst snd after]. fold id. rewrite Hreg.
    rewrite bool_decide_eq_true_2 by done.
    rewrite bind_run. unfold rs_blpop at 1 2 3. rewrite transport_through by exact F.
    cbn [result final events fst snd after app]. fold l. fold id.
    destruct (blpop_lists l _) as [[[k x] l']|]; cbn [fst snd after events app];
      eexists; reflexivity.
Qed.

(** *** Failure of the fetch *)

Lemma fetch_task_malformed data raw w :
  faults w = [] ->
  kv (rs w) !! ("karton.task:" +:+ data) = Some (Garbage raw) ->
  result (fetch_task data w) = Raises (Exc "ValueError" raw).
Proof.
  intros F K. unfold fetch_task, mbind, Py_bind. rewrite bind_run.
  rewrite rs_get_through by exact F. cbn [result final events]. by rewrite K.
Qed.

Lemma fetch_task_unreachable data e rest w :
  faults w = Some e :: rest ->
  result (fetch_task data w) = Raises e.
Proof.
  intros F. unfold fetch_task, mbind, Py_bind. rewrite bind_run.
  unfold rs_get, transport. by rewrite F.
Qed.

Lemma internal_process_fetch_fails c data e w :
  result (fetch_task data w) = Raises e ->
  internal_process c data w =
  mkOutcome (Raises e) (final (fetch_task data w)) (events (fetch_task data w)).
Proof.
  intros H. unfold internal_process, mbind, Py_bind. rewrite bind_run. by rewrite H.
Qed.

(** C3, as amended. When fetching or deserializing the record of a task id
    popped from a queue raises, transport or serialization failure alike,
    [internal_process] raises the same exception having done nothing but the
    read (no state declared, no counter touched), and the exception leaves
    the [while] loop and [consume]: the consumption loop ends. *)
Theorem fetch_failure_ends_loop pf c fuel w queue data e :
  shutdown w = false ->
  let o1 := rs_hget_binds (identity c) w in
  result o1 = Returns (Some (_registration c)) ->
  let o2 := rs_blpop (poll_keys pf c) (final o1) in
  result o2 = Returns (Some (queue, data)) ->
  let o3 := fetch_task data (final o2) in
  result o3 = Raises e ->
  internal_process c data (final o2) = mkOutcome (Raises e) (final o3) (events o3)
  /\ Forall (fun ev => ev = EvGet ("karton.task:" +:+ data)) (events o3)
  /\ rs (final o3) = rs (final o2)
  /\ while_not_shutdown pf c (S fuel) w
     = mkOutcome (Raises e) (final o3) (events o1 ++ events o2 ++ events o3)
  /\ result (consume pf c (S fuel) w) = Raises e.
Proof.
  intros Hs o1 R1 o2 R2 o3 R3.
  assert (HI : internal_process c data (final o2)
               = mkOutcome (Raises e) (final o3) (events o3))
    by (by apply internal_process_fetch_fails).
  assert (HW : while_not_shutdown pf c (S fuel) w
               = mkOutcome (Raises e) (final o3) (events o1 ++ events o2 ++ events o3)).
  { cbn [while_not_shutdown]. rewrite Hs. cbv zeta.
    unfold loop_body, mbind, Py_bind, mret, Py_ret.
    rewrite bind_run. fold o1. rewrite R1. rewrite bool_decide_eq_true_2 by done.
    cbn [after result final events]. rewrite bind_run. fold o2. rewrite R2.
    cbn [after result final events]. rewrite bind_run, HI.
    cbn [after result final events]. reflexivity. }
  split; [exact HI|]. split; [|split; [|split; [exact HW|]]].
  - subst o3. unfold fetch_task, mbind, Py_bind. rewrite bind_run.
    unfold rs_get, transport.
    destruct (faults (final o2)) as [|[x|] rest]; cbn [result final events fst snd after];
      try done.
    all: destruct (kv _ !! _) as [[t'|raw]|]; cbn; by repeat constructor.
  - subst o3. unfold fetch_task, mbind, Py_bind. rewrite bind_run.
    unfold rs_get, transport.
    destruct (faults (final o2)) as [|[x|] rest]; cbn [result final events fst snd after];
      try done.
    all: destruct (kv _ !! _) as [[t'|raw]|]; cbn; done.
  - unfold consume, try_except_KeyboardInterrupt. rewrite HW. cbn [result final events].
    destruct (is_KeyboardInterrupt e); [|done].
    unfold mbind, Py_bind. rewrite bind_run. reflexivity.
Qed.
End Properties.

(** * Concrete runs *)

Section Concrete.
Import Demo.

Lemma demo_hooks_raise_Exceptions :
  Forall (fun h : option string * PreHook nat => raises_only_Exception h.2)
    (_pre_hooks service)
  /\ Forall (fun h : option string * PostHook nat =>
              forall exc, raises_only_Exception (fun t => h.2 t exc))
       (_post_hooks service)
  /\ raises_only_Exception (process service).
Proof.
  split; [|split].
  - repeat constructor; intros t u e; cbn; intros [= <-]; reflexivity.
  - repeat constructor; intros exc t u e; cbn; intros [= <-]; reflexivity.
  - intros t u e; cbn; intros [= <-]; reflexivity.
Defined.

Lemma sample_matches_second_bind :
  find (matches_bind sample) (filters service) = Some {["type" := "sample"]}.
Proof. vm_compute. reflexivity. Defined.

Lemma unwanted_matches_no_bind :
  Forall (fun b => matches_bind unwanted b = false) (filters service).
Proof. repeat constructor. Defined.

(** A unit of work that raises, run while no task is current: the task
    swapped in stays current and no FINISHED state is declared. *)
Lemma continue_asynchronic_raise_skips_exit_witness :
  let body : Py nat unit := raise (Exc "ValueError" "boom") in
  let o := continue_asynchronic service sample true body idle in
  result (body (with_current_task (Some sample) idle)) = Raises (Exc "ValueError" "boom")
  /\ current_task idle = None
  /\ result o = Raises (Exc "ValueError" "boom")
  /\ current_task (final o) = Some sample
  /\ events o = [EvLogSetTask (Some sample)].
Proof.
  cbv zeta. split; [reflexivity|]. split; [reflexivity|].
  destruct (continue_asynchronic_raise_skips_exit service sample true
              (raise (Exc "ValueError" "boom")) (Exc "ValueError" "boom") idle eq_refl)
    as (R & F & E).
  split; [exact R|]. split; [rewrite F; reflexivity|]. rewrite E. reflexivity.
Defined.

(** C2, as stated, fails: with an id in the legacy queue and one in the HIGH
    queue, the poll takes the legacy one and leaves the HIGH queue as it
    is. *)
Lemma legacy_queue_polled_before_high :
  let o := rs_blpop (poll_keys priority_format service) two_queues in
  lists (rs two_queues) !! queue_name priority_format HIGH "karton.test" = Some ["from-high"]
  /\ result o = Returns (Some ("karton.test", "from-legacy"))
  /\ lists (rs (final o)) !! queue_name priority_format HIGH "karton.test"
     = Some ["from-high"].
Proof. cbv zeta. split_and!; vm_compute; reflexivity. Qed.

Lemma poll_order_witness :
  faults two_queues = []
  /\ result (rs_blpop (poll_keys priority_format service) two_queues)
     = Returns (Some ("karton.test", "from-legacy")).
Proof.
  split; [reflexivity|].
  destruct (poll_order priority_format service two_queues eq_refl) as (H & _).
  apply (H "from-legacy" []). vm_compute. reflexivity.
Defined.

(** C3, as stated, fails: the first id popped has a malformed record, the
    loop ends with the deserialization error, and the id behind it stays in
    its queue, never handled. *)
Lemma malformed_record_ends_loop :
  let o := loop priority_format service 5 malformed_first in
  result o = Raises (Exc "ValueError" "{not json")
  /\ lists (rs (final o)) !! queue_name priority_format NORMAL "karton.test" = Some ["t1"]
  /\ Forall (fun e => is_process_call e = false) (events o).
Proof.
  cbv zeta. split_and!; [vm_compute; reflexivity ..|].
  vm_compute. repeat constructor.
Qed.

Lemma fetch_failure_ends_loop_witness :
  let w := with_rs (with_binds {["karton.test" := "registration"]} (rs malformed_first))
             malformed_first in
  shutdown w = false
  /\ result (while_not_shutdown priority_format service 3 w)
     = Raises (Exc "ValueError" "{not json").
Proof.
  cbv zeta. split; [reflexivity|].
  set (w := with_rs _ malformed_first).
  destruct (fetch_failure_ends_loop priority_format service 2 w
              "karton.queue.normal:karton.test" "bad" (Exc "ValueError" "{not json"))
    as (_ & _ & _ & H & _).
  - reflexivity.
  - vm_compute. reflexivity.
  - vm_compute. reflexivity.
  - vm_compute. reflexivity.
  - rewrite H. reflexivity.
Defined.

(** C4, as stated, fails: a task sent with priority NORMAL lands in
    ["karton.tasks"] and in no priority queue of the service that is bound
    to it. *)
Lemma send_task_fills_no_priority_queue :
  let o := send_task service sample idle in
  result o = Returns true
  /\ lists (rs (final o)) !! "karton.tasks" = Some ["t1"]
  /\ lists (rs (final o)) !! queue_name priority_format HIGH "karton.test" = None
  /\ lists (rs (final o)) !! queue_name priority_format NORMAL "karton.test" = None
  /\ lists (rs (final o)) !! queue_name priority_format LOW "karton.test" = None
  /\ lists (rs (final o)) !! "karton.test" = None.
Proof. cbv zeta. split_and!; vm_compute; reflexivity. Qed.

Lemma send_task_pushes_to_unrouted_queue_witness :
  faults idle = []
  /\ lists (rs (final (send_task service sample idle))) !! TASKS_QUEUE = Some ["t1"].
Proof.
  split; [reflexivity|].
  destruct (send_task_pushes_to_unrouted_queue service sample idle eq_refl) as (_ & H & _).
  exact H.
Defined.


Lemma send_task_inherits_from_current_task_witness :
  current_task busy = Some parent
  /\ faults busy = []
  /\ exists t',
       kv (rs (final (send_task service sample busy))) !! "karton.task:t1"
       = Some (TaskRecord t')
       /\ parent_uid t' = Some "p0"
       /\ priority t' = HIGH
       /\ payload t' !! "note" = Some (Plain "mine")
       /\ payload t' !! "case" = Some (Plain "case-7").
Proof.
  split; [reflexivity|]. split; [reflexivity|].
  destruct (send_task_inherits_from_current_task service sample parent busy eq_refl eq_refl)
    as (t' & _ & K & _ & P & Q & Own & Inh).
  exists t'. split; [exact K|]. split; [exact P|]. split; [exact Q|]. split.
  - apply (Own "note" (Plain "mine")). vm_compute. reflexivity.
  - rewrite (Inh "case"); vm_compute; reflexivity.
Defined.

Lemma handler_runs_only_on_match_witness :
  faults stocked = []
  /\ kv (rs stocked) !! ("karton.task:" +:+ "t2") = Some (TaskRecord unwanted)
  /\ Forall (fun b => matches_bind unwanted b = false) (filters service)
  /\ result (internal_process service "t2" stocked) = Returns tt.
Proof.
  split; [reflexivity|]. split; [vm_compute; reflexivity|].
  split; [exact unwanted_matches_no_bind|].
  destruct (handler_runs_only_on_match service "t2" stocked) as (_ & H).
  destruct (H unwanted eq_refl) as (R & _).
  - vm_compute. reflexivity.
  - exact unwanted_matches_no_bind.
  - exact R.
Defined.



Lemma rejection_only_declares_finished_witness :
  faults stocked = []
  /\ kv (rs stocked) !! ("karton.task:" +:+ "t2") = Some (TaskRecord unwanted)
  /\ Forall (fun b => matches_bind unwanted b = false) (filters service)
  /\ final (internal_process service "t2" stocked)
     = with_current_task (Some unwanted) stocked.
Proof.
  split; [reflexivity|]. split; [vm_compute; reflexivity|].
  split; [exact unwanted_matches_no_bind|].
  destruct (rejection_only_declares_finished service "t2" unwanted stocked)
    as (_ & _ & H & _);
    [reflexivity|vm_compute; reflexivity|exact unwanted_matches_no_bind|].
  exact H.
Defined.

(** The whole run on [sample]: the first pre-hook and the second post-hook
    raise, the handler raises, and everything still runs to the FINISHED
    declaration. *)
Example sample_run :
  events (internal_process service "t1" stocked) =
  [EvGet "karton.task:t1"; EvLogSetTask (Some sample);
   EvLog INFO "Received new task - %s" [ArgStr "t1"];
   EvDeclare sample STARTED "karton.test";
   EvPreHook (Some "audit") sample (Some (Exc "RuntimeError" "hook down"));
   EvLog EXCEPTION "Pre-hook (%s) failed" [ArgStr "audit"];
   EvPreHook None sample None;
   EvProcess [sample] (Some (Exc "ValueError" "bad sample"));
   EvPostHook (Some "report") sample (Some (Exc "ValueError" "bad sample")) None;
   EvPostHook (Some "") sample (Some (Exc "ValueError" "bad sample"))
     (Some (Exc "RuntimeError" "post-hook down"));
   EvLog EXCEPTION "Post-hook failed" [];
   EvHincrby "karton.metrics.errored" "karton.test" 1;
   EvLog EXCEPTION "Failed to process task - %s" [ArgStr "t1"];
   EvHincrby "karton.metrics.consumed" "karton.test" 1;
   EvDeclare sample FINISHED "karton.test"].
Proof. vm_compute. reflexivity. Qed.

End Concrete.

(** * Further properties of the engine *)

Section MoreProps.
Context {U : Type}.
Implicit Types (w : World U) (c : Service U).

(** *** Invariants, whatever the faults *)

Section KeepsAny.
Variable I : World U -> Prop.
Variable P : Event -> Prop.
Hypothesis I_faults : forall w f, I w -> I (with_faults f w).
Hypothesis I_user : forall f t w, I w -> I (user_step f t w).

Lemma keeps_transport_any {A} (op : World U -> A * World U) ev :
  (forall w, I w -> I (op w).2) ->
  (forall a, P (ev a)) ->
  keeps I P (transport op ev).
Proof.
  intros Hop Hev w Hw. unfold transport.
  destruct (faults w) as [|[e|] rest]; cbn [final events].
  - split; [by apply Hop|]. by repeat constructor.
  - split; [by apply I_faults|]. constructor.
  - split; [apply Hop; by apply I_faults|]. by repeat constructor.
Qed.

Lemma keeps_try_finally {A} (body : Py U A) fin :
  keeps I P body -> keeps I P fin -> keeps I P (try_finally body fin).
Proof.
  intros Hb Hf w Hw. unfold try_finally. cbv zeta.
  destruct (Hb w Hw) as [I1 P1]. destruct (Hf _ I1) as [I2 P2].
  destruct (result (fin (final (body w)))); (split; [exact I2|]);
    cbn [events]; by apply Forall_app.
Qed.

Lemma keeps_hooks_any {H} (hooks : list H) (f : H -> Task -> U -> CallResult U) ev hd :
  (forall h t r, P (ev h t r)) ->
  (forall h e, keeps I P (hd h e)) ->
  keeps I P (for_each hooks (fun h => try_except_Exception (call_user (f h) (ev h)) (hd h))).
Proof.
  intros Hev Hhd. apply keeps_for_each. intros h. apply keeps_try_except.
  - apply keeps_call_user; [intros; by apply I_user|apply Hev].
  - apply Hhd.
Qed.

Lemma keeps_process_with_post_hooks_any c :
  (forall args r, P (EvProcess args r)) ->
  (forall n t x r, P (EvPostHook n t x r)) ->
  (forall fmt args, P (EvLog EXCEPTION fmt args)) ->
  keeps I P (process_with_post_hooks c).
Proof.
  intros Hp Hh Hl.
  assert (Hpost : forall exc, keeps I P (_run_post_hooks c exc)).
  { intros exc. apply keeps_hooks_any; [intros; apply Hh|].
    intros h _. destruct (truthy h.1); apply keeps_log; apply Hl. }
  assert (Hcall : keeps I P (call_process c)).
  { unfold call_process. destruct (process_arg_num c);
      (apply keeps_call_user; [intros; by apply I_user|intros; apply Hp]). }
  intros w Hw. unfold process_with_post_hooks. cbv zeta.
  destruct (Hcall w Hw) as [I1 P1].
  destruct (result (call_process c w)) as [a|e].
  - destruct (Hpost None _ I1) as [I2 P2]. split; [exact I2|].
    cbn [after events]. by apply Forall_app.
  - destruct (is_Exception e); [|by split].
    destruct (Hpost (Some e) _ I1) as [I2 P2].
    destruct (result (_run_post_hooks c (Some e) (final (call_process c w))));
      (split; [exact I2|]; cbn [events]; by apply Forall_app).
Qed.
End KeepsAny.


Lemma keeps_raise {A} (I : World U -> Prop) P (e : exn) : keeps I P (raise (A:=A) e).
Proof. intros w Hw. by split. Qed.

Lemma only_metrics_differ_refl ident w : only_metrics_differ ident w w.
Proof. by repeat split. Qed.

Section Frame.
Variable c : Service U.
Variable w0 : World U.
Local Abbreviation I := (only_metrics_differ (identity c) w0).
Local Abbreviation P := (consumer_effect (identity c)).

Lemma frame_faults w f : I w -> I (with_faults f w).
Proof. done. Qed.

Lemma frame_user f t w : I w -> I (user_step f t w).
Proof. done. Qed.

Lemma frame_current t w : I w -> I (with_current_task t w).
Proof. done. Qed.

Lemma frame_bump name w :
  name = METRICS_CONSUMED \/ name = METRICS_ERRORED ->
  I w -> I (bump name (identity c) w).
Proof.
  intros Hn (K & L & B & M & S & C). repeat split; try done.
  intros key H1 H2. cbn. rewrite lookup_insert_ne; [by apply C|].
  destruct Hn as [-> | ->]; congruence.
Qed.

Lemma keeps_hincrby_metric name :
  name = METRICS_CONSUMED \/ name = METRICS_ERRORED ->
  keeps I P (rs_hincrby name (identity c) 1).
Proof.
  intros Hn. apply keeps_transport_any; [apply frame_faults| |done].
  intros w Hw. by apply (frame_bump name).
Qed.

Lemma keeps_declare_any t st : keeps I P (declare_task_state t st (identity c)).
Proof. apply keeps_transport_any; [apply frame_faults|done|done]. Qed.

Lemma keeps_fetch_task data : keeps I P (fetch_task data).
Proof.
  unfold fetch_task, mbind, Py_bind. apply keeps_bind.
  - apply keeps_transport_any; [apply frame_faults|done|done].
  - intros [[t|raw]|]; cbn [unserialize]; [apply keeps_ret|apply keeps_raise ..].
Qed.

Lemma keeps_reject : keeps I P (reject c).
Proof.
  unfold reject, mbind, Py_bind.
  apply keeps_bind; [by apply keeps_log|intros _].
  apply keeps_bind; [apply keeps_the_current_task|intros t].
  apply keeps_declare_any.
Qed.

Lemma keeps_try_block_any : keeps I P (try_block c).
Proof.
  unfold try_block, mbind, Py_bind.
  apply keeps_bind; [apply keeps_the_current_task|intros t].
  apply keeps_bind; [by apply keeps_log|intros _].
  apply keeps_bind; [apply keeps_the_current_task|intros t'].
  apply keeps_bind; [apply keeps_declare_any|intros _].
  apply keeps_bind.
  { apply keeps_hooks_any; [apply frame_user|done|].
    intros h _. destruct (truthy h.1); by apply keeps_log. }
  intros _.
  apply keeps_bind; [by apply keeps_process_with_post_hooks_any; [apply frame_user|..]|].
  intros _.
  apply keeps_bind; [apply keeps_the_current_task|intros t''].
  by apply keeps_log.
Qed.

Lemma keeps_except_block_any : keeps I P (except_block c).
Proof.
  unfold except_block, mbind, Py_bind.
  apply keeps_bind; [apply keeps_hincrby_metric; by right|intros _].
  apply keeps_bind; [apply keeps_the_current_task|intros t].
  by apply keeps_log.
Qed.

Lemma keeps_finally_block_any : keeps I P (finally_block c).
Proof.
  unfold finally_block, mbind, Py_bind, mret, Py_ret.
  apply keeps_bind; [apply keeps_hincrby_metric; by left|intros _].
  apply keeps_bind; [apply keeps_the_current_task|intros t].
  destruct (negb (is_asynchronic t)); [apply keeps_declare_any|apply keeps_ret].
Qed.

Lemma keeps_internal_process data : keeps I P (internal_process c data).
Proof.
  unfold internal_process, mbind, Py_bind.
  apply keeps_bind; [apply keeps_fetch_task|intros t].
  apply keeps_bind; [intros w Hw; split; [by apply frame_current|constructor]|intros _].
  apply keeps_bind; [intros w Hw; by split|intros cur].
  apply keeps_bind; [intros w Hw; split; [done|by repeat constructor]|intros _].
  apply keeps_bind; [apply keeps_the_current_task|intros t'].
  destruct (find (matches_bind t') (filters c)); [|apply keeps_reject].
  apply keeps_try_finally.
  - apply keeps_try_except; [apply keeps_try_block_any|intros _; apply keeps_except_block_any].
  - apply keeps_finally_block_any.
Qed.
End Frame.


(** *** What the hooks leave to the handler *)

Lemma hooks_final {H} (f : H -> Task -> U -> CallResult U) ev hd lg (hooks : list H) :
  (forall h e w, hd h e w = mkOutcome (Returns tt) w [lg h]) ->
  Forall (fun h => raises_only_Exception (f h)) hooks ->
  forall w t, current_task w = Some t ->
  final (for_each hooks (fun h => try_except_Exception (call_user (f h) (ev h)) (hd h)) w)
  = after_hooks (f <$> hooks) w.
Proof.
  intros Hhd. induction 1 as [|h rest Hh _ IH]; intros w t Ht; [done|].
  change (for_each (h :: rest) ?b w) with (bind (b h) (fun _ => for_each rest b) w).
  rewrite bind_run. cbv beta.
  rewrite (guarded_call_run (f h) (ev h) (hd h) (lg h) t w Ht Hh (Hhd h)).
  cbn [result final events after fmap list_fmap after_hooks]. rewrite Ht.
  by apply (IH _ (cr_task (f h t (user w)))).
Qed.

Lemma after_hooks_keeps fs w :
  is_Some (current_task w) ->
  is_Some (current_task (after_hooks fs w))
  /\ rs (after_hooks fs w) = rs w
  /\ faults (after_hooks fs w) = faults w.
Proof.
  revert w. induction fs as [|f rest IH]; intros w [t Ht]; [by eauto|].
  cbn [after_hooks]. rewrite Ht.
  destruct (IH (user_step f t w)) as (C & R & F); [by eexists|]. by repeat split.
Qed.

Lemma run_pre_hooks_final c w t :
  Forall (fun h => raises_only_Exception h.2) (_pre_hooks c) ->
  current_task w = Some t ->
  final (_run_pre_hooks c w) = after_hooks (_pre_hooks c).*2 w.
Proof.
  intros Hx Ht.
  apply (hooks_final (fun h : option string * PreHook U => h.2)
           (fun h => EvPreHook h.1) _ pre_hook_failure_log) with (t := t); try done.
  intros h e w'. unfold pre_hook_failure_log. by destruct (truthy h.1).
Qed.

Lemma run_post_hooks_final c exc w t :
  Forall (fun h => raises_only_Exception (fun t => h.2 t exc)) (_post_hooks c) ->
  current_task w = Some t ->
  final (_run_post_hooks c exc w)
  = after_hooks ((fun h t => h.2 t exc) <$> _post_hooks c) w.
Proof.
  intros Hx Ht.
  apply (hooks_final (fun (h : option string * PostHook U) t => h.2 t exc)
           (fun h t => EvPostHook h.1 t exc) _ post_hook_failure_log) with (t := t); try done.
  intros h e w'. unfold post_hook_failure_log. by destruct (truthy h.1).
Qed.

(** The outcome of the [try] body in terms of what the pre-hooks left. *)
Lemma try_block_handler c w t :
  faults w = [] ->
  current_task w = Some t ->
  Forall (fun h => raises_only_Exception h.2) (_pre_hooks c) ->
  let w2 := after_hooks (_pre_hooks c).*2 w in
  exists t2 pre,
    current_task w2 = Some t2
    /\ forallb is_pre_hook_activity pre = true
    /\ let o3 := process_with_post_hooks c w2 in
       try_block c w =
       match result o3 with
       | Returns _ =>
           after ([EvLog INFO "Received new task - %s" [ArgStr (uid t)];
                   EvDeclare t STARTED (identity c)] ++ pre ++ events o3)
             ((t ← the_current_task ; log INFO "Task done - %s" [ArgStr (uid t)]) (final o3))
       | Raises e =>
           mkOutcome (Raises e) (final o3)
             ([EvLog INFO "Received new task - %s" [ArgStr (uid t)];
               EvDeclare t STARTED (identity c)] ++ pre ++ events o3)
       end.
Proof.
  intros F1 C1 Hpre w2. unfold try_block, mbind, Py_bind.
  rewrite bind_run, (the_current_task_run t w C1). cbn [result final events after].
  rewrite bind_run. cbn [log result final events after].
  rewrite bind_run, (the_current_task_run t w C1). cbn [result final events after].
  rewrite bind_run, declare_through by exact F1. cbn [result final events after].
  rewrite bind_run.
  destruct (run_pre_hooks_spec c w t Hpre C1) as (R & _ & _ & A & [t2 C2] & _).
  pose proof (run_pre_hooks_final c w t Hpre C1) as Hw2. fold w2 in Hw2.
  cbv zeta in R, A, C2.
  set (o2 := _run_pre_hooks c w) in *. clearbody o2.
  destruct o2 as [r2 w2' pre]. cbn [result final events] in *. subst r2 w2'.
  exists t2, pre. split; [exact C2|]. split; [exact A|]. cbv zeta.
  rewrite bind_run.
  destruct (result (process_with_post_hooks c w2)) as [[]|e].
  - unfold after. cbn [result final events app]. f_equal.
    by rewrite <- !app_assoc.
  - unfold after. cbn [result final events app]. reflexivity.
Qed.

Lemma rs_bump name key w w' : rs w' = rs w -> rs (bump name key w') = rs (bump name key w).
Proof. intros H. unfold bump. cbn. by rewrite H. Qed.

Lemma process_with_post_hooks_head c w t :
  current_task w = Some t ->
  exists rest,
    events (process_with_post_hooks c w)
    = EvProcess (process_args c t) (cr_raised (process c t (user w))) :: rest.
Proof.
  intros Ht. unfold process_with_post_hooks. cbv zeta.
  rewrite (call_process_run c t w Ht). cbn [result final events].
  destruct (cr_raised (process c t (user w))) as [e|].
  - destruct (is_Exception e); [|by eexists].
    destruct (result (_run_post_hooks _ _ _)); cbn [events app]; by eexists.
  - cbn [after events app]. by eexists.
Qed.

(** X2. For a task that matches a bind, with the broker reachable and pre-
    hooks whose failures are instances of [Exception]: the handler is called
    on the current task as the pre-hooks left it, so what a pre-hook did to
    the task is what the handler sees, also when that pre-hook raised;
    before that call come only the fetch, the log entry, the STARTED
    declaration and the activity of the pre-hooks. *)
Theorem handler_gets_task_from_pre_hooks c data t w :
  faults w = [] ->
  kv (rs w) !! ("karton.task:" +:+ data) = Some (TaskRecord t) ->
  is_Some (find (matches_bind t) (filters c)) ->
  Forall (fun h => raises_only_Exception h.2) (_pre_hooks c) ->
  let w2 := after_hooks (_pre_hooks c).*2 (with_current_task (Some t) w) in
  let o := internal_process c data w in
  exists t2 pre rest,
    current_task w2 = Some t2
    /\ forallb is_pre_hook_activity pre = true
    /\ events o =
         [EvGet ("karton.task:" +:+ data); EvLogSetTask (Some t);
          EvLog INFO "Received new task - %s" [ArgStr (uid t)];
          EvDeclare t STARTED (identity c)]
         ++ pre
         ++ EvProcess (process_args c t2) (cr_raised (process c t2 (user w2))) :: rest.
Proof.
  intros F K [b Hb] Hpre w2 o. subst o.
  rewrite (internal_process_accepts c data t b w F K Hb).
  set (w1 := with_current_task (Some t) w) in *.
  destruct (try_block_handler c w1 t F eq_refl Hpre) as (t2 & pre & C2 & A & HB).
  fold w2 in C2, HB. cbv zeta in HB.
  destruct (process_with_post_hooks_head c w2 t2 C2) as (rest3 & E3).
  exists t2, pre. unfold try_finally, try_except_Exception. cbv zeta. rewrite HB, E3.
  destruct (result (process_with_post_hooks c w2)) as [[]|e].
  - set (od := (_ ← the_current_task ; _) _). 
    destruct (result (after _ od)) as [a|e'] eqn:R1.
    + destruct (result (finally_block c _)); cbn [after events app];
        rewrite <- ?app_assoc; cbn [app]; rewrite <- ?app_assoc; cbn [app];
        eexists; (split; [exact C2|split; [exact A|reflexivity]]).
    + destruct (is_Exception e');
      destruct (result (finally_block c _)); cbn [after events app];
        rewrite <- ?app_assoc; cbn [app]; rewrite <- ?app_assoc; cbn [app];
        eexists; (split; [exact C2|split; [exact A|reflexivity]]).
  - cbn [result final events].
    destruct (is_Exception e);
    destruct (result (finally_block c _)); cbn [after events app result final];
      rewrite <- ?app_assoc; cbn [app]; rewrite <- ?app_assoc; cbn [app];
      eexists; (split; [exact C2|split; [exact A|reflexivity]]).
Qed.

(** *** The counters *)


(** *** Exceptions that are not instances of [Exception] *)

(** X4. For a task that matches a bind, with the broker reachable: when the
    handler raises an exception outside [Exception] (the except clause of
    lines 195-197 is skipped, so [saved_exception] is never bound), the
    inner [finally] clause fails with [UnboundLocalError] before any post-
    hook is called; that error is what the outer [except Exception] catches,
    the task is counted as errored and consumed and is finalized, and
    [internal_process] returns: the handler's exception goes no further. *)
Theorem handler_hard_exception_is_swallowed c data t e w :
  faults w = [] ->
  kv (rs w) !! ("karton.task:" +:+ data) = Some (TaskRecord t) ->
  is_Some (find (matches_bind t) (filters c)) ->
  Forall (fun h => raises_only_Exception h.2) (_pre_hooks c) ->
  let w2 := after_hooks (_pre_hooks c).*2 (with_current_task (Some t) w) in
  (forall t2, current_task w2 = Some t2 -> cr_raised (process c t2 (user w2)) = Some e) ->
  is_Exception e = false ->
  let o := internal_process c data w in
  exists t2 t3 pre,
    current_task w2 = Some t2
    /\ t3 = cr_task (process c t2 (user w2))
    /\ forallb is_pre_hook_activity pre = true
    /\ result o = Returns tt
    /\ post_hook_calls (events o) = []
    /\ events o =
         [EvGet ("karton.task:" +:+ data); EvLogSetTask (Some t);
          EvLog INFO "Received new task - %s" [ArgStr (uid t)];
          EvDeclare t STARTED (identity c)]
         ++ pre
         ++ [EvProcess (process_args c t2) (Some e);
             EvHincrby METRICS_ERRORED (identity c) 1;
             EvLog EXCEPTION "Failed to process task - %s" [ArgStr (uid t3)];
             EvHincrby METRICS_CONSUMED (identity c) 1]
         ++ (if is_asynchronic t3 then [] else [EvDeclare t3 FINISHED (identity c)]).
Proof.
  intros F K [b Hb] Hpre w2 He Hx o. subst o.
  rewrite (internal_process_accepts c data t b w F K Hb).
  set (w1 := with_current_task (Some t) w) in *.
  destruct (try_block_handler c w1 t F eq_refl Hpre) as (t2 & pre & C2 & A & HB).
  fold w2 in C2, HB. cbv zeta in HB.
  destruct (after_hooks_keeps (_pre_hooks c).*2 w1) as (_ & R2 & F2); [by eexists|].
  fold w2 in R2, F2. specialize (He t2 C2).
  assert (H3 : process_with_post_hooks c w2
               = mkOutcome
                   (Raises (Exc "UnboundLocalError"
                      "local variable 'saved_exception' referenced before assignment"))
                   (user_step (process c) t2 w2)
                   [EvProcess (process_args c t2) (Some e)]).
  { unfold process_with_post_hooks. cbv zeta. rewrite (call_process_run c t2 w2 C2).
    rewrite He. cbn [result final events]. by rewrite Hx. }
  rewrite H3 in HB. cbn [result final events] in HB.
  set (t3 := cr_task (process c t2 (user w2))).
  set (w3 := user_step (process c) t2 w2) in *.
  assert (C3 : current_task w3 = Some t3) by reflexivity.
  assert (F3 : faults w3 = []) by (cbn; rewrite F2; exact F).
  assert (HE : try_except_Exception (try_block c) (fun _ => except_block c) w1
               = after ([EvLog INFO "Received new task - %s" [ArgStr (uid t)];
                         EvDeclare t STARTED (identity c)] ++ pre
                        ++ [EvProcess (process_args c t2) (Some e)])
                   (except_block c w3)).
  { rewrite try_except_Exception_run, HB. reflexivity. }
  rewrite (except_block_run c t3 w3 F3 C3) in HE.
  rewrite (try_finally_run _ _ w1 _ _
             (eq_trans (f_equal (fun o => finally_block c (final o)) HE)
                (finally_block_run c t3 (bump METRICS_ERRORED (identity c) w3) F3 C3))).
  rewrite HE. cbn [after result final events].
  exists t2, t3, pre. split; [exact C2|]. split; [reflexivity|]. split; [exact A|].
  split; [reflexivity|].
  assert (Hpre_calls : post_hook_calls pre = []).
  { clear -A. induction pre as [|x pre IH]; [done|].
    cbn [forallb] in A. apply andb_true_iff in A as [A1 A2].
    unfold post_hook_calls in *. cbn [omap list_omap].
    destruct x; try done; cbn; by apply IH. }
  split.
  - unfold post_hook_calls in *. rewrite !omap_app, Hpre_calls.
    cbn. by destruct (is_asynchronic t3).
  - rewrite <- !app_assoc. cbn [app]. reflexivity.
Qed.

(** *** Hooks in sequence *)

Lemma outcome_eta {A} (o : Outcome U A) : mkOutcome (result o) (final o) (events o) = o.
Proof. by destruct o. Qed.

Lemma for_each_app {A} (xs ys : list A) (body : A -> Py U unit) w :
  for_each (xs ++ ys) body w = bind (for_each xs body) (fun _ => for_each ys body) w.
Proof.
  revert w. induction xs as [|x xs IH]; intros w.
  - cbn [app for_each]. rewrite bind_run. unfold mret, Py_ret, ret.
    cbn [result final events]. unfold after. cbn [app]. by rewrite outcome_eta.
  - cbn [app].
    change (for_each (x :: ?l) body w) with (bind (body x) (fun _ => for_each l body) w).
    rewrite !bind_run.
    change (for_each (x :: xs) body w) with (bind (body x) (fun _ => for_each xs body) w).
    rewrite bind_run.
    destruct (result (body x w)) as [[]|e]; [|reflexivity].
    rewrite IH, bind_run. cbn [after result final events].
    destruct (result (for_each xs body (final (body x w)))) as [[]|e'].
    + unfold after. cbn [result final events]. by rewrite app_assoc.
    + reflexivity.
Qed.

Lemma for_each_one {A} (x : A) (body : A -> Py U unit) w :
  for_each [x] body w = body x w.
Proof.
  cbn [for_each]. unfold mbind, Py_bind. rewrite bind_run.
  destruct (body x w) as [[[]|e] w' evs]; cbn [result final events];
    unfold mret, Py_ret, ret, after; cbn [result final events]; by rewrite ?app_nil_r.
Qed.

(** X5. A hook registered with [add_pre_hook] or [add_post_hook] runs after
    the hooks registered before it: running the hooks of the extended
    service is running those of the service, then the new hook under its own
    [try], with its failure logged under its name if it has one. *)
Theorem added_hook_runs_last c w :
  (forall callback name,
     _run_pre_hooks (add_pre_hook callback name c) w =
     (_run_pre_hooks c ;;
      try_except_Exception
        (call_user callback (EvPreHook name))
        (fun _ => if truthy name
                  then log EXCEPTION "Pre-hook (%s) failed" [ArgStr (default "" name)]
                  else log EXCEPTION "Pre-hook failed" [])) w)
  /\ (forall callback name exception,
        _run_post_hooks (add_post_hook callback name c) exception w =
        (_run_post_hooks c exception ;;
         try_except_Exception
           (call_user (fun t => callback t exception) (fun t => EvPostHook name t exception))
           (fun _ => if truthy name
                     then log EXCEPTION "Post-hook (%s) failed" [ArgStr (default "" name)]
                     else log EXCEPTION "Post-hook failed" [])) w).
Proof.
  split.
  - intros callback name. unfold _run_pre_hooks, add_pre_hook. cbn [_pre_hooks].
    rewrite for_each_app. unfold mbind, Py_bind. rewrite !bind_run.
    destruct (result (for_each (_pre_hooks c) _ w)) as [[]|e]; [|reflexivity].
    by rewrite for_each_one.
  - intros callback name exception. unfold _run_post_hooks, add_post_hook.
    cbn [_post_hooks].
    rewrite for_each_app. unfold mbind, Py_bind. rewrite !bind_run.
    destruct (result (for_each (_post_hooks c) _ w)) as [[]|e]; [|reflexivity].
    by rewrite for_each_one.
Qed.

(** X6. For a task that matches a bind, with the broker reachable: when a
    pre-hook raises an exception outside [Exception] (the pre-hooks before
    it keeping to [Exception]), nothing catches it on the way: the pre-hooks
    after it, the handler and the post-hooks are not called and the errored
    counter is not touched, but the [finally] clause still counts the task
    as consumed and declares it FINISHED (unless asynchronous) before the
    exception leaves [internal_process]. *)
Theorem pre_hook_hard_exception_propagates c data t e w before name h rest :
  faults w = [] ->
  kv (rs w) !! ("karton.task:" +:+ data) = Some (TaskRecord t) ->
  is_Some (find (matches_bind t) (filters c)) ->
  _pre_hooks c = before ++ (name, h) :: rest ->
  Forall (fun h => raises_only_Exception h.2) before ->
  let w2 := after_hooks before.*2 (with_current_task (Some t) w) in
  (forall t2, current_task w2 = Some t2 -> cr_raised (h t2 (user w2)) = Some e) ->
  is_Exception e = false ->
  let o := internal_process c data w in
  exists t2 t3 pre,
    current_task w2 = Some t2
    /\ t3 = cr_task (h t2 (user w2))
    /\ pre_hook_calls pre = before.*1
    /\ forallb is_pre_hook_activity pre = true
    /\ result o = Raises e
    /\ events o =
         [EvGet ("karton.task:" +:+ data); EvLogSetTask (Some t);
          EvLog INFO "Received new task - %s" [ArgStr (uid t)];
          EvDeclare t STARTED (identity c)]
         ++ pre
         ++ [EvPreHook name t2 (Some e);
             EvHincrby METRICS_CONSUMED (identity c) 1]
         ++ (if is_asynchronic t3 then [] else [EvDeclare t3 FINISHED (identity c)]).
Proof.
  intros F K [b Hb] Hhooks Hbefore w2 He Hx o. subst o.
  rewrite (internal_process_accepts c data t b w F K Hb).
  set (w1 := with_current_task (Some t) w) in *.
  set (c' := mkService (identity c) (minio_bucket c) (filters c) (_registration c)
               before (_post_hooks c) (process c) (process_arg_num c)).
  destruct (run_pre_hooks_spec c' w1 t Hbefore eq_refl)
    as (R & P & _ & A & [t2 C2] & F2 & _).
  pose proof (run_pre_hooks_final c' w1 t Hbefore eq_refl) as Hw2.
  cbn [_pre_hooks c'] in Hw2, P. fold w2 in Hw2. cbv zeta in R, P, A, C2, F2.
  assert (HP : _run_pre_hooks c w1
               = mkOutcome (Raises e) (user_step h t2 w2)
                   (events (_run_pre_hooks c' w1) ++ [EvPreHook name t2 (Some e)])).
  { unfold _run_pre_hooks at 1. rewrite Hhooks, for_each_app, bind_run.
    change (for_each before _ w1) with (_run_pre_hooks c' w1).
    rewrite R, Hw2.
    change (for_each ((name, h) :: rest) ?bd w2)
      with (bind (bd (name, h)) (fun _ => for_each rest bd) w2).
    rewrite bind_run, try_except_Exception_run. cbn [fst snd].
    rewrite (call_user_run h (EvPreHook name) t2 w2) by (rewrite <- Hw2; exact C2).
    rewrite (He t2) by (rewrite <- Hw2; exact C2). cbn [result final events].
    rewrite Hx. cbn [result final events after]. reflexivity. }
  rewrite Hw2 in C2, F2.
  set (pre := events (_run_pre_hooks c' w1)) in *. clearbody pre.
  set (t3 := cr_task (h t2 (user w2))).
  set (w3 := user_step h t2 w2) in *.
  assert (C3 : current_task w3 = Some t3) by reflexivity.
  assert (F3 : faults w3 = []) by (cbn; rewrite F2; exact F).
  assert (HB : try_block c w1
               = mkOutcome (Raises e) w3
                   ([EvLog INFO "Received new task - %s" [ArgStr (uid t)];
                     EvDeclare t STARTED (identity c)] ++ pre
                    ++ [EvPreHook name t2 (Some e)])).
  { unfold try_block, mbind, Py_bind.
    rewrite bind_run, (the_current_task_run t w1) by reflexivity.
    cbn [result final events after].
    rewrite bind_run. cbn [log result final events after].
    rewrite bind_run, (the_current_task_run t w1) by reflexivity.
    cbn [result final events after].
    rewrite bind_run, declare_through by exact F. cbn [result final events after].
    rewrite bind_run, HP. cbn [result final events after]. reflexivity. }
  assert (HE : try_except_Exception (try_block c) (fun _ => except_block c) w1
               = mkOutcome (Raises e) w3
                   ([EvLog INFO "Received new task - %s" [ArgStr (uid t)];
                     EvDeclare t STARTED (identity c)] ++ pre
                    ++ [EvPreHook name t2 (Some e)])).
  { rewrite try_except_Exception_run, HB. cbn [result final events]. by rewrite Hx. }
  rewrite (try_finally_run _ _ w1 _ _
             (eq_trans (f_equal (fun o => finally_block c (final o)) HE)
                (finally_block_run c t3 w3 F3 C3))).
  rewrite HE. cbn [after result final events].
  exists t2, t3, pre. split; [exact C2|]. split; [reflexivity|]. split; [exact P|].
  split; [exact A|]. split; [reflexivity|].
  rewrite <- !app_assoc. cbn [app]. reflexivity.
Qed.

(** *** The loop *)

Lemma for_each_logs {A} (xs : list A) (ev : A -> LogLevel * string * list LogArg) w :
  for_each xs (fun x => log (ev x).1.1 (ev x).1.2 (ev x).2) w
  = mkOutcome (Returns tt) w ((fun x => EvLog (ev x).1.1 (ev x).1.2 (ev x).2) <$> xs).
Proof.
  induction xs as [|x xs IH]; [reflexivity|].
  change (for_each (x :: xs) ?b w) with (bind (b x) (fun _ => for_each xs b) w).
  rewrite bind_run. cbn [log result final events]. rewrite IH. reflexivity.
Qed.

(** X7. With the broker reachable, [loop] first replaces the registry entry
    of its identity by its own registration in one transaction, says whether
    the entry was new or different, names its binds and sets the client
    name, and only then enters the guarded [while] loop, on a broker where
    its registration is the current one. *)
Theorem loop_registers_first pf c fuel w :
  faults w = [] ->
  loop pf c fuel w =
  after ([EvLog INFO "Service %s started" [ArgStr (identity c)];
          EvHgetHset BINDS (identity c) (_registration c)]
         ++ registration_notice c (binds (rs w) !! identity c)
         ++ ((fun f => EvLog INFO "Binding on: %s" [ArgBind f]) <$> filters c)
         ++ [EvClientSetname (identity c)])
    (consume pf c fuel (registered c w))
  /\ binds (rs (registered c w)) !! identity c = Some (_registration c).
Proof.
  intros F. split; [|apply lookup_insert_eq].
  unfold loop, mbind, Py_bind, mret, Py_ret.
  rewrite bind_run. cbn [log result final events].
  rewrite bind_run. unfold rs_pipeline_hget_hset_binds.
  rewrite transport_through by exact F. cbn [result final events fst snd].
  fold (registered c w). rewrite bind_run.
  assert (HN : (if negb (truthy (binds (rs w) !! identity c))
                then log INFO "Service binds created." []
                else if negb (bool_decide (binds (rs w) !! identity c = Some (_registration c)))
                     then log INFO "Binds changed, old service instances should exit soon." []
                     else ret tt) (registered c w)
               = mkOutcome (Returns tt) (registered c w)
                   (registration_notice c (binds (rs w) !! identity c))).
  { unfold registration_notice.
    destruct (negb (truthy _)); [reflexivity|]. by destruct (negb (bool_decide _)). }
  rewrite HN. cbn [result final events]. rewrite bind_run.
  rewrite (for_each_logs (filters c) (fun f => (INFO, "Binding on: %s", [ArgBind f]))).
  cbn [result final events]. rewrite bind_run. unfold rs_client_setname.
  rewrite transport_through by exact F. cbn [result final events fst snd].
  unfold after. cbn [result final events]. f_equal.
  rewrite <- !app_assoc. reflexivity.
Qed.

(** X8. With the broker reachable and no shutdown asked: when the registry
    entry of the identity is not the service's own registration, the first
    pass logs it and leaves the loop without polling: no queue is read and
    the world is unchanged. *)
Theorem changed_binds_stop_the_loop pf c fuel w :
  faults w = [] ->
  shutdown w = false ->
  binds (rs w) !! identity c <> Some (_registration c) ->
  while_not_shutdown pf c (S fuel) w =
  mkOutcome (Returns true) w
    [EvHget BINDS (identity c); EvLog INFO "Binds changed, shutting down." []].
Proof.
  intros F S B. cbn [while_not_shutdown]. rewrite S. cbv zeta.
  unfold loop_body, mbind, Py_bind, mret, Py_ret.
  rewrite bind_run. unfold rs_hget_binds. rewrite transport_through by exact F.
  cbn [result final events fst snd]. rewrite bool_decide_eq_false_2 by exact B.
  rewrite bind_run. reflexivity.
Qed.

Lemma loop_body_idle pf c w :
  faults w = [] ->
  binds (rs w) !! identity c = Some (_registration c) ->
  Forall (no_items (lists (rs w))) (poll_keys pf c) ->
  loop_body pf c w =
  mkOutcome (Returns true) w [EvHget BINDS (identity c); EvBlpop (poll_keys pf c) None].
Proof.
  intros F B E. unfold loop_body, mbind, Py_bind, mret, Py_ret.
  rewrite bind_run. unfold rs_hget_binds. rewrite transport_through by exact F.
  cbn [result final events fst snd]. rewrite B, bool_decide_eq_true_2 by done.
  rewrite bind_run. unfold rs_blpop. rewrite transport_through by exact F.
  rewrite (blpop_lists_none _ _ E). reflexivity.
Qed.

(** X9. With the broker reachable and no shutdown asked: while the
    registration is current and the four polled queues are empty, the loop
    only reads: each pass checks the registry and polls, finds nothing, and
    leaves the world exactly as it was, for any number of passes. *)
Theorem idle_polling_changes_nothing pf c fuel w :
  faults w = [] ->
  shutdown w = false ->
  binds (rs w) !! identity c = Some (_registration c) ->
  Forall (no_items (lists (rs w))) (poll_keys pf c) ->
  while_not_shutdown pf c fuel w =
  mkOutcome (Returns false) w
    (concat (replicate fuel [EvHget BINDS (identity c); EvBlpop (poll_keys pf c) None])).
Proof.
  intros F S B E. induction fuel as [|n IH]; [reflexivity|].
  cbn [while_not_shutdown]. rewrite S. cbv zeta.
  rewrite (loop_body_idle pf c w F B E). cbn [result final events].
  rewrite IH. reflexivity.
Qed.

(** X10. An exception that leaves one pass of the [while] loop leaves the
    loop: no further pass runs and nothing swallows it; a
    [KeyboardInterrupt] is logged as a hard shutdown on its way out, any
    other exception passes as it is. *)
Theorem exception_in_a_pass_ends_the_loop pf c fuel e w :
  shutdown w = false ->
  result (loop_body pf c w) = Raises e ->
  consume pf c (S fuel) w =
  mkOutcome (Raises e) (final (loop_body pf c w))
    (events (loop_body pf c w)
       ++ if is_KeyboardInterrupt e then [EvLog INFO "Hard shutting down!" []] else []).
Proof.
  intros S R. unfold consume, try_except_KeyboardInterrupt. cbv zeta.
  cbn [while_not_shutdown]. rewrite S. cbv zeta. rewrite R. rewrite R.
  destruct (is_KeyboardInterrupt e).
  - unfold mbind, Py_bind. rewrite bind_run. reflexivity.
  - rewrite app_nil_r. rewrite <- R. by destruct (loop_body pf c w).
Qed.

Lemma blpop_lists_some l keys k x l' :
  blpop_lists l keys = Some (k, x, l') ->
  k ∈ keys
  /\ exists xs, l !! k = Some (x :: xs)
      /\ l' !! k = (match xs with [] => None | _ => Some xs end)
      /\ forall k', k' <> k -> l' !! k' = l !! k'.
Proof.
  induction keys as [|k0 rest IH]; [done|]. cbn [blpop_lists].
  destruct (l !! k0) as [[|y ys]|] eqn:E.
  - intros H. destruct (IH H) as (Hin & Hx). split; [by right|exact Hx].
  - intros [= <- <- <-]. split; [by left|]. exists ys. split; [exact E|].
    destruct ys as [|z zs].
    + split; [apply lookup_delete_eq|]. intros k' Hk. by apply lookup_delete_ne.
    + split; [apply lookup_insert_eq|]. intros k' Hk. by apply lookup_insert_ne.
  - intros H. destruct (IH H) as (Hin & Hx). split; [by right|exact Hx].
Qed.


(** *** The producer *)

(** X12. When the unit of work returns, the scope of [continue_asynchronic]
    closes in order: with [finish=False] it only puts the previous current
    task back; with [finish=True] (and the broker reachable) it first
    declares FINISHED for the task that is current when the unit of work
    ends, then puts the previous one back. *)
Theorem continue_asynchronic_normal_exit c task finish (body : Py U unit) w :
  let w1 := with_current_task (Some task) w in
  result (body w1) = Returns tt ->
  let o := continue_asynchronic c task finish body w in
  (finish = false ->
     result o = Returns tt
     /\ final o = with_current_task (current_task w) (final (body w1))
     /\ events o = [EvLogSetTask (Some task)] ++ events (body w1)
                   ++ [EvLogSetTask (current_task w)])
  /\ (finish = true ->
      forall t', current_task (final (body w1)) = Some t' ->
      faults (final (body w1)) = [] ->
      result o = Returns tt
      /\ final o = with_current_task (current_task w) (final (body w1))
      /\ events o = [EvLogSetTask (Some task)] ++ events (body w1)
                    ++ [EvDeclare t' FINISHED (identity c); EvLogSetTask (current_task w)]).
Proof.
  intros w1 Hr o. subst o. unfold continue_asynchronic.
  unfold mbind, Py_bind, mret, Py_ret.
  rewrite bind_run. cbn [get_current_task result events final after].
  rewrite bind_run. cbn [set_current_task result events final after].
  rewrite bind_run. cbn [get_current_task result events final after].
  rewrite bind_run. cbn [log_handler_set_task result events final after].
  rewrite bind_run. fold w1.
  set (ob := body w1) in *. clearbody ob. destruct ob as [rb wb eb].
  cbn [result final events] in *. subst rb.
  cbn [result events final after]. rewrite bind_run.
  split.
  - intros ->. cbn. done.
  - intros -> t' Hc Hf.
    rewrite bind_run, (the_current_task_run t') by exact Hc.
    cbn [result events final after]. rewrite declare_through by exact Hf.
    cbn. done.
Qed.

(** X13. When the unit of work returned and the FINISHED declaration of the
    closing scope fails, [continue_asynchronic] is left with that exception
    before the previous current task is put back: the task of the scope
    stays current and the log handler is not switched back. *)
Theorem continue_asynchronic_failed_declaration c task (body : Py U unit) w t' e rest :
  let w1 := with_current_task (Some task) w in
  result (body w1) = Returns tt ->
  current_task (final (body w1)) = Some t' ->
  faults (final (body w1)) = Some e :: rest ->
  let o := continue_asynchronic c task true body w in
  result o = Raises e
  /\ current_task (final o) = Some t'
  /\ events o = [EvLogSetTask (Some task)] ++ events (body w1).
Proof.
  intros w1 Hr Hc Hf o. subst o. unfold continue_asynchronic.
  unfold mbind, Py_bind, mret, Py_ret.
  rewrite bind_run. cbn [get_current_task result events final after].
  rewrite bind_run. cbn [set_current_task result events final after].
  rewrite bind_run. cbn [get_current_task result events final after].
  rewrite bind_run. cbn [log_handler_set_task result events final after].
  rewrite bind_run. fold w1.
  set (ob := body w1) in *. clearbody ob. destruct ob as [rb wb eb].
  cbn [result final events] in *. subst rb.
  cbn [result events final after]. rewrite bind_run.
  rewrite bind_run, (the_current_task_run t') by exact Hc.
  cbn [result events final after]. unfold declare_task_state, transport. rewrite Hf.
  cbn. by rewrite app_nil_r.
Qed.

Lemma uploads_keep_broker (nrs : list (string * Resource)) w :
  let o := for_each nrs (fun nr => if is_LocalResource nr.2 then upload nr.2 else mret tt) w in
  rs (final o) = rs w /\ current_task (final o) = current_task w.
Proof.
  revert w. induction nrs as [|nr rest IH]; intros w; [done|]. cbv zeta.
  change (for_each (nr :: rest) ?b w) with (bind (b nr) (fun _ => for_each rest b) w).
  rewrite bind_run. cbv beta.
  set (body := fun nr : string * Resource => _) in *.
  destruct (is_LocalResource nr.2).
  - unfold upload, transport.
    destruct (faults w) as [|[e|] fs]; cbn [result final events after fst snd]; try done.
    + destruct (IH (with_minio (minio w ++ [nr.2]) w)) as [H1 H2]. by rewrite H1, H2.
    + destruct (IH (with_minio (minio (with_faults fs w) ++ [nr.2]) (with_faults fs w)))
        as [H1 H2]. by rewrite H1, H2.
  - cbn [mret Py_ret ret result final events after]. apply IH.
Qed.

Lemma uploads_fill_store (nrs : list (string * Resource)) w :
  faults w = [] ->
  minio (final (for_each nrs
                  (fun nr => if is_LocalResource nr.2 then upload nr.2 else mret tt) w))
  = minio w ++ filter (fun r => is_LocalResource r = true) nrs.*2.
Proof.
  revert w. induction nrs as [|nr rest IH]; intros w F.
  - cbn. by rewrite app_nil_r.
  - rewrite filter_local_cons.
    change (for_each (nr :: rest) ?b w) with (bind (b nr) (fun _ => for_each rest b) w).
    rewrite bind_run. cbv beta.
    set (body := fun nr : string * Resource => _) in *.
    destruct (is_LocalResource nr.2).
    + unfold upload. rewrite transport_through by exact F.
      cbn [result final events after fst snd]. rewrite IH by exact F.
      cbn. by rewrite <- app_assoc.
    + cbn [mret Py_ret ret result final events after app]. by apply IH.
Qed.

(** X14. When no call fails, whatever the current task: the record
    [send_task] writes keeps the task's id and asynchronous flag, carries
    the time of the call as [last_update], and has the producer's identity
    as origin header, replacing any origin the caller had put there; the
    other headers are the caller's. *)
Theorem send_task_stamps_origin_and_time c task w :
  faults w = [] ->
  let o := send_task c task w in
  exists t',
    kv (rs (final o)) !! (TASK_PREFIX +:+ uid task) = Some (TaskRecord t')
    /\ uid t' = uid task
    /\ asynchronic t' = asynchronic task
    /\ last_update t' = clock w
    /\ headers t' !! "origin" = Some (identity c)
    /\ (forall k, k <> "origin" -> headers t' !! k = headers task !! k).
Proof.
  intros F o. destruct (send_task_through c task w F) as (_ & Hk & _).
  fold o in Hk. rewrite uid_complete_task in Hk.
  exists (complete_task c (current_task w) (clock w) task).
  split; [rewrite Hk; apply lookup_insert_eq|].
  unfold complete_task. destruct (current_task w) as [cur|]; cbn.
  - repeat split; [apply lookup_insert_eq|]. intros k Hk'. by apply lookup_insert_ne.
  - repeat split; [apply lookup_insert_eq|]. intros k Hk'. by apply lookup_insert_ne.
Qed.

(** X15. When no call fails and no task is current, nothing is inherited:
    the record [send_task] writes has the priority, the parent and the
    persistent payload the caller gave, and the caller's payload with the
    bucket of local resources filled in. *)
Theorem send_task_without_current_task c task w :
  faults w = [] ->
  current_task w = None ->
  let o := send_task c task w in
  exists t',
    kv (rs (final o)) !! (TASK_PREFIX +:+ uid task) = Some (TaskRecord t')
    /\ priority t' = priority task
    /\ parent_uid t' = parent_uid task
    /\ payload_persistent t' = payload_persistent task
    /\ payload t' = ensure_bucket (minio_bucket c) <$> payload task.
Proof.
  intros F C o. destruct (send_task_through c task w F) as (_ & Hk & _).
  fold o in Hk. rewrite uid_complete_task, C in Hk.
  exists (complete_task c None (clock w) task).
  split; [rewrite Hk; apply lookup_insert_eq|]. by repeat split.
Qed.

Lemma iterate_resources_lookup t name r :
  (name, r) ∈ iterate_resources t -> payload t !! name = Some (Res r).
Proof.
  unfold iterate_resources. rewrite list_elem_of_omap.
  intros ([k v] & Hin & Hv). apply elem_of_map_to_list in Hin.
  cbn [fst snd] in Hv. destruct v as [|r']; [done|]. by injection Hv as -> ->.
Qed.



(** X18. When no call fails: besides the record of the task, the list
    [karton.tasks] and the produced counter of its identity (incremented by
    1), [send_task] changes nothing in the broker: every other key, list and
    counter and the bind registry are as before, and so is the current task. *)
Theorem send_task_touches_only_its_entries c task w :
  faults w = [] ->
  let o := send_task c task w in
  (forall k, k <> TASK_PREFIX +:+ uid task -> kv (rs (final o)) !! k = kv (rs w) !! k)
  /\ (forall k, k <> TASKS_QUEUE -> lists (rs (final o)) !! k = lists (rs w) !! k)
  /\ (forall k, k <> (METRICS_PRODUCED, identity c) ->
        counters (rs (final o)) !! k = counters (rs w) !! k)
  /\ counters (rs (final o)) !! (METRICS_PRODUCED, identity c)
     = Some (default 0 (counters (rs w) !! (METRICS_PRODUCED, identity c)) + 1)
  /\ binds (rs (final o)) = binds (rs w)
  /\ current_task (final o) = current_task w.
Proof.
  intros F o. destruct (send_task_through c task w F) as (_ & Hk & Hl & Hc & Hb & Ht).
  fold o in Hk, Hl, Hc, Hb, Ht. rewrite uid_complete_task in Hk.
  rewrite Hk, Hl, Hc. split_and!; try done.
  - intros k Hne. by apply lookup_insert_ne.
  - intros k Hne. by apply lookup_insert_ne.
  - intros k Hne. by apply lookup_insert_ne.
  - apply lookup_insert_eq.
Qed.

Lemma publish_tail (nrs : list (string * Resource)) ident u w :
  let o := bind (for_each nrs (fun nr => if is_LocalResource nr.2 then upload nr.2 else ret tt))
             (fun _ => bind (rs_rpush TASKS_QUEUE u)
                (fun _ => bind (rs_hincrby METRICS_PRODUCED ident 1)
                   (fun _ => ret true))) w in
  kv (rs (final o)) = kv (rs w)
  /\ (lists (rs (final o)) = lists (rs w)
      \/ lists (rs (final o))
         = <[TASKS_QUEUE := default [] (lists (rs w) !! TASKS_QUEUE) ++ [u]]> (lists (rs w))).
Proof.
  cbv zeta.
  pose proof (uploads_keep_broker nrs w) as Hu. cbv zeta in Hu.
  unfold mret, Py_ret in Hu. destruct Hu as [Hu _].
  unfold bind.
  set (ou := for_each nrs _ w) in *. clearbody ou.
  destruct ou as [[[]|e] wu eu]; cbn [result final events] in *; [|rewrite Hu; auto].
  unfold rs_rpush, rs_hincrby, transport, ret.
  destruct wu as [r m fs k ct sh us]; cbn in Hu; subst r.
  destruct fs as [|[e|] [|[e'|] rest]]; cbn; auto.
Qed.

(** X19. Whatever fails on the way, [send_task] never publishes an id whose
    record is not in the broker: either the lists of the broker are as they
    were, or the id was appended to [karton.tasks] and the record of the
    completed task is stored under the task key. *)
Theorem send_task_never_publishes_unwritten c task w :
  let t' := complete_task c (current_task w) (clock w) task in
  let o := send_task c task w in
  lists (rs (final o)) = lists (rs w)
  \/ (lists (rs (final o))
       = <[TASKS_QUEUE := default [] (lists (rs w) !! TASKS_QUEUE) ++ [uid task]]>
           (lists (rs w))
      /\ kv (rs (final o)) !! (TASK_PREFIX +:+ uid task) = Some (serialize t')).
Proof.
  intros t' o. subst o. unfold send_task, mbind, Py_bind, mret, Py_ret.
  rewrite bind_run. cbn [log result events final after].
  rewrite bind_run. cbn [get_current_task result events final after].
  rewrite bind_run. cbn [time_time result events final after].
  fold t'. rewrite (uid_complete_task c (current_task w) (clock w) task : uid t' = uid task).
  pose proof (fun w1 => publish_tail (iterate_resources t') (identity c) (uid task) w1) as T.
  cbv zeta in T.
  set (tail := bind (for_each _ _) _) in *. clearbody tail.
  unfold bind, rs_set, transport.
  destruct (faults w) as [|[e|] rest]; cbn [result final events fst snd after];
    [|by left|].
  - match goal with |- context [tail ?w1] => destruct (T w1) as [K [L|L]] end;
      rewrite L; [by left|right].
    split; [reflexivity|]. rewrite K. apply lookup_insert_eq.
  - match goal with |- context [tail ?w1] => destruct (T w1) as [K [L|L]] end;
      rewrite L; [by left|right].
    split; [reflexivity|]. rewrite K. apply lookup_insert_eq.
Qed.
(** X26. Once [graceful_shutdown] has run, the guarded [while] loop ends at
    its next test: it returns without a call to the broker, whatever waits
    in the queues and whatever the broker would answer; the only effect is
    the log line of the shutdown, and nothing but the flag has changed. *)
Theorem graceful_shutdown_stops_polling pf c fuel w :
  let o := (graceful_shutdown ;; consume pf c (S fuel)) w in
  result o = Returns true
  /\ events o = [EvLog INFO "Gracefully shutting down!" []]
  /\ final o = with_shutdown true w.
Proof.
  cbv zeta. unfold graceful_shutdown, mbind, Py_bind.
  rewrite bind_run, bind_run. cbn [log set_shutdown result final events after].
  unfold consume, try_except_KeyboardInterrupt. cbn [while_not_shutdown].
  cbn [shutdown with_shutdown result final events after app]. done.
Qed.

End MoreProps.

(** * Properties of the log consumer *)

Section LogProps.

Context {U : Type}.
Variable json_loads : string -> option Json.

Lemma blpop_logs_nil (l : gmap string (list string)) :
  default [] (l !! LOGS_QUEUE) = [] -> blpop_lists l [LOGS_QUEUE] = None.
Proof. cbn [blpop_lists]. by destruct (l !! LOGS_QUEUE) as [[|x xs]|]. Qed.

Lemma blpop_logs_cons (l : gmap string (list string)) raw rest :
  default [] (l !! LOGS_QUEUE) = raw :: rest ->
  exists l', blpop_lists l [LOGS_QUEUE] = Some (LOGS_QUEUE, raw, l')
             /\ default [] (l' !! LOGS_QUEUE) = rest
             /\ forall k, k <> LOGS_QUEUE -> l' !! k = l !! k.
Proof.
  cbn [blpop_lists]. destruct (l !! LOGS_QUEUE) as [[|x xs]|] eqn:E; try done.
  cbn. intros [= -> ->]. eexists. split; [reflexivity|].
  destruct rest as [|y ys].
  - split; [by rewrite lookup_delete_eq|]. intros k Hk. by rewrite lookup_delete_ne.
  - split; [by rewrite lookup_insert_eq|]. intros k Hk. by rewrite lookup_insert_ne.
Qed.

Lemma except_print_Exception e :
  is_Exception e = true -> except_print e = (None, [LcPrintExc e]).
Proof. unfold except_print. by intros ->. Qed.

Lemma decode_event_raises_Exception raw e :
  decode_event json_loads raw = Raises e -> is_Exception e = true.
Proof.
  unfold decode_event, loads, and_then.
  destruct (json_loads raw) as [body|]; [|by intros [= <-]].
  destruct body as [| | | s | items | fields]; cbn [contains_task];
    try by intros [= <-].
  - destruct (String.index 0 "task" s); [by intros [= <-]|done].
  - destruct (existsb _ items); [by intros [= <-]|done].
  - destruct (bool_decide _); [|done]. cbn [getitem_task].
    destruct (fields !! "task") as [[| | | s | |]|]; try done; try by intros [= <-].
    destruct (json_loads s); [done|by intros [= <-]].
Qed.

Lemma handle_log_plain (c : LogService U) raw w :
  plain_callback c -> shutdown w = false ->
  let h := handle_log json_loads c raw w in
  h.1.1 = None /\ rs h.1.2 = rs w /\ faults h.1.2 = faults w /\ shutdown h.1.2 = false
  /\ popped h.2 = []
  /\ process_log_calls h.2 = from_option (fun b => [b]) [] (decoded json_loads raw).
Proof.
  intros Hc Hs. cbv zeta. unfold handle_log, decoded.
  destruct (decode_event json_loads raw) as [body|e] eqn:E.
  - destruct (Hc body (user w)) as [H1 H2]. cbv zeta. rewrite H1.
    destruct (lc_raised (process_log c body (user w))) as [e|] eqn:R; [|done].
    rewrite (except_print_Exception e (H2 e eq_refl)). done.
  - rewrite (except_print_Exception e (decode_event_raises_Exception raw e E)). done.
Qed.

Lemma popped_blpop k item tr : popped (LcBlpop k item :: tr) = item.2 :: popped tr.
Proof. reflexivity. Qed.

Lemma popped_app a b : popped (a ++ b) = popped a ++ popped b.
Proof. apply omap_app. Qed.

Lemma process_log_calls_blpop k item tr :
  process_log_calls (LcBlpop k item :: tr) = process_log_calls tr.
Proof. reflexivity. Qed.

Lemma process_log_calls_app a b :
  process_log_calls (a ++ b) = process_log_calls a ++ process_log_calls b.
Proof. apply omap_app. Qed.

Lemma log_while_drains (c : LogService U) raws :
  plain_callback c ->
  forall fuel w,
    faults w = [] -> shutdown w = false ->
    default [] (lists (rs w) !! LOGS_QUEUE) = raws ->
    (length raws < fuel)%nat ->
    let r := log_while json_loads c fuel w in
    lr_end r = Blocked
    /\ popped (lr_trace r) = raws
    /\ process_log_calls (lr_trace r) = omap (decoded json_loads) raws
    /\ default [] (lists (rs (lr_final r)) !! LOGS_QUEUE) = []
    /\ forall k, k <> LOGS_QUEUE -> lists (rs (lr_final r)) !! k = lists (rs w) !! k.
Proof.
  intros Hc. induction raws as [|raw rest IH]; intros fuel w F Hs Q L; cbv zeta.
  - destruct fuel as [|n]; [cbn in L; lia|]. cbn [log_while]. rewrite Hs, F.
    cbn [tail with_faults rs]. rewrite (blpop_logs_nil _ Q). by cbn.
  - destruct fuel as [|n]; [cbn in L; lia|]. cbn [log_while]. rewrite Hs, F.
    cbn [tail with_faults rs].
    destruct (blpop_logs_cons _ raw rest Q) as (l' & B & Q' & K). rewrite B.
    set (w2 := with_rs _ _).
    destruct (handle_log_plain c raw w2 Hc Hs) as (H1 & H2 & H3 & H4 & H5 & H6).
    rewrite H1.
    destruct (IH n (handle_log json_loads c raw w2).1.2) as (E & P & C & D & O).
    + rewrite H3. reflexivity.
    + exact H4.
    + rewrite H2. exact Q'.
    + cbn in L. lia.
    + unfold log_after. cbn [lr_end lr_final lr_trace].
      split; [exact E|]. split.
      { by rewrite popped_app, popped_blpop, H5, P. }
      split.
      { rewrite process_log_calls_app, process_log_calls_blpop, H6, C.
        cbn [omap list_omap]. by destruct (decoded json_loads raw). }
      split; [exact D|]. intros k Hk. rewrite (O k Hk), H2. apply (K k Hk).
Qed.

Lemma decode_event_reaches raw body :
  decode_event json_loads raw = Returns body -> reaches_process_log body.
Proof.
  unfold decode_event, loads, and_then.
  destruct (json_loads raw) as [b|]; [|done].
  destruct b as [| | | s | items | fields]; cbn [contains_task]; try done.
  - destruct (String.index 0 "task" s) eqn:E; [done|]. intros [= <-]. cbn. by rewrite E.
  - destruct (existsb _ items) eqn:E; [done|]. intros [= <-]. cbn. by rewrite E.
  - destruct (bool_decide _); [|by intros [= <-]]. cbn [getitem_task].
    destruct (fields !! "task") as [[| | | s | |]|]; try done; try by intros [= <-].
    destruct (json_loads s); [|done]. cbn. by intros [= <-].
Qed.

Lemma handle_log_trace (c : LogService U) raw w :
  let h := handle_log json_loads c raw w in
  forallb (fun e => negb (is_logger_call e)) h.2 = true
  /\ handed_only reaches_process_log h.2.
Proof.
  cbv zeta. unfold handle_log, handed_only.
  destruct (decode_event json_loads raw) as [body|e] eqn:E.
  - pose proof (decode_event_reaches raw body E) as R. cbv zeta.
    destruct (lc_raised _) as [e|]; [|by split; [|repeat constructor]].
    unfold except_print. destruct (is_Exception e); by split; [|repeat constructor].
  - unfold except_print. destruct (is_Exception e); by split; [|repeat constructor].
Qed.

Lemma log_while_trace (c : LogService U) fuel :
  forall w,
    forallb (fun e => negb (is_logger_call e)) (lr_trace (log_while json_loads c fuel w)) = true
    /\ handed_only reaches_process_log (lr_trace (log_while json_loads c fuel w)).
Proof.
  induction fuel as [|n IH]; intros w; [by split; [|constructor]|].
  cbn [log_while]. destruct (shutdown w); [by split; [|constructor]|].
  assert (forall w1 : World U,
    let r := match blpop_lists (lists (rs w1)) [LOGS_QUEUE] with
             | Some (queue, body, l') =>
                 let h := handle_log json_loads c body (with_rs (with_lists l' (rs w1)) w1) in
                 match h.1.1 with
                 | Some e =>
                     mkLogRun (Failed e) h.1.2 (LcBlpop LOGS_QUEUE (queue, body) :: h.2)
                 | None =>
                     log_after (LcBlpop LOGS_QUEUE (queue, body) :: h.2)
                       (log_while json_loads c n h.1.2)
                 end
             | None => mkLogRun Blocked w1 []
             end in
    forallb (fun e => negb (is_logger_call e)) (lr_trace r) = true
    /\ handed_only reaches_process_log (lr_trace r)) as Step.
  { intros w1. cbv zeta.
    destruct (blpop_lists _ _) as [[[queue body] l']|]; [|by split; [|constructor]].
    set (w2 := with_rs _ _).
    destruct (handle_log_trace c body w2) as [H1 H2].
    destruct (handle_log json_loads c body w2).1.1.
    - cbn [lr_trace]. split; [exact H1|]. by constructor.
    - destruct (IH (handle_log json_loads c body w2).1.2) as [I1 I2].
      unfold log_after. cbn [lr_trace]. split.
      + rewrite forallb_app. cbn [forallb is_logger_call negb andb]. by rewrite H1, I1.
      + apply Forall_app. split; [by constructor|exact I2]. }
  destruct (faults w) as [|[e|] rest]; [apply Step|by split; [|constructor]|apply Step].
Qed.

(** X20. [LogConsumer.loop]: with the broker reachable and a callback that
    keeps to [Exception] and does not set [self.shutdown], no entry of the
    log queue stops the loop. Every entry is popped, in the order of the
    queue; [process_log] is called on exactly the entries that decode, in
    that order, with the decoded event; the loop ends up waiting on the
    emptied queue and no other list of the broker is touched. *)
Theorem log_loop_drains_queue (c : LogService U) raws fuel w :
  plain_callback c ->
  faults w = [] -> shutdown w = false ->
  default [] (lists (rs w) !! LOGS_QUEUE) = raws ->
  (length raws < fuel)%nat ->
  let r := log_loop json_loads c fuel w in
  lr_end r = Blocked
  /\ popped (lr_trace r) = raws
  /\ process_log_calls (lr_trace r) = omap (decoded json_loads) raws
  /\ default [] (lists (rs (lr_final r)) !! LOGS_QUEUE) = []
  /\ forall k, k <> LOGS_QUEUE -> lists (rs (lr_final r)) !! k = lists (rs w) !! k.
Proof.
  intros Hc F Hs Q L.
  destruct (log_while_drains c raws Hc fuel w F Hs Q L) as (E & P & C & D & O).
  cbv zeta. unfold log_loop, log_after. cbn [lr_end lr_final lr_trace].
  by rewrite popped_app, process_log_calls_app.
Qed.

(** X21. [LogConsumer.loop]: the service's own logger is used once, for the
    start line; whatever the entries, the callback and the broker do, the
    passes of the loop never log through it (failures go to
    [traceback.print_exc]). *)
Theorem log_loop_logs_only_its_start (c : LogService U) fuel w :
  filter (fun e => is_logger_call e = true) (lr_trace (log_loop json_loads c fuel w))
  = [LcLog INFO "Logger %s started" [ArgStr (logger_identity c)]].
Proof.
  unfold log_loop, log_after. cbn [lr_trace app].
  rewrite filter_cons_True by done. f_equal.
  destruct (log_while_trace c fuel w) as [H _].
  induction (lr_trace (log_while json_loads c fuel w)) as [|e tr IH]; [done|].
  cbn [forallb] in H. apply andb_prop in H as [H1 H2].
  rewrite filter_cons_False; [by apply IH|].
  intros K. by rewrite K in H1.
Qed.

(** X22. [LogConsumer.loop]: whatever the broker and the callback do,
    [process_log] is only ever handed a dict, or a list or str in which the
    word task does not occur: on a number, a boolean or None the membership
    test of line 346 raises [TypeError], and on a list or string holding it
    the subscript does; both are caught and printed, and the entry is
    dropped. *)
Theorem process_log_gets_no_scalar (c : LogService U) fuel w :
  handed_only reaches_process_log (lr_trace (log_loop json_loads c fuel w)).
Proof.
  unfold log_loop, log_after, handed_only. cbn [lr_trace app].
  constructor; [done|]. apply (log_while_trace c fuel w).
Qed.

Lemma log_while_head (c : LogService U) n w raw rest :
  faults w = [] -> shutdown w = false ->
  default [] (lists (rs w) !! LOGS_QUEUE) = raw :: rest ->
  exists l',
    default [] (l' !! LOGS_QUEUE) = rest
    /\ let h := handle_log json_loads c raw (with_rs (with_lists l' (rs w)) w) in
       log_while json_loads c (S n) w
       = match h.1.1 with
         | Some e => mkLogRun (Failed e) h.1.2 (LcBlpop LOGS_QUEUE (LOGS_QUEUE, raw) :: h.2)
         | None => log_after (LcBlpop LOGS_QUEUE (LOGS_QUEUE, raw) :: h.2)
                     (log_while json_loads c n h.1.2)
         end.
Proof.
  intros F Hs Q. destruct (blpop_logs_cons _ raw rest Q) as (l' & B & Q' & K).
  exists l'. split; [exact Q'|]. cbv zeta. cbn [log_while]. rewrite Hs, F.
  cbn [tail]. replace (with_faults [] w) with w by (by destruct w; cbn in F; subst).
  by rewrite B.
Qed.

(** X23. [LogConsumer.loop]: with the broker reachable and no shutdown
    asked, when the entry at the head of the queue is a JSON object whose
    task field is a string holding JSON, [process_log] is called with that
    field replaced by its decoded value and the other fields as they were. *)
Theorem task_field_is_decoded_for_process_log (c : LogService U) n w raw rest fields s task :
  faults w = [] -> shutdown w = false ->
  default [] (lists (rs w) !! LOGS_QUEUE) = raw :: rest ->
  json_loads raw = Some (JObject fields) ->
  fields !! "task" = Some (JString s) ->
  json_loads s = Some task ->
  let event := JObject (<["task" := task]> fields) in
  exists tr,
    lr_trace (log_loop json_loads c (S n) w)
    = LcLog INFO "Logger %s started" [ArgStr (logger_identity c)]
      :: LcBlpop LOGS_QUEUE (LOGS_QUEUE, raw)
      :: LcProcessLog event (lc_raised (process_log c event (user w)))
      :: tr.
Proof.
  intros F Hs Q J T J2 event.
  destruct (log_while_head c n w raw rest F Hs Q) as (l' & _ & E). cbv zeta in E.
  unfold log_loop, log_after. cbn [lr_trace app]. rewrite E. clear E.
  assert (decode_event json_loads raw = Returns event) as D.
  { unfold decode_event, loads, and_then. rewrite J. cbn [contains_task].
    rewrite T. rewrite bool_decide_eq_true_2 by eauto. cbn [getitem_task].
    rewrite T, J2. reflexivity. }
  unfold handle_log. rewrite D. cbv zeta. cbn [user with_rs].
  destruct (lc_raised (process_log c event (user w))) as [e|].
  - unfold except_print. destruct (is_Exception e); cbn; eauto.
  - cbn. eauto.
Qed.

(** X24. [LogConsumer.loop]: an exception of [process_log] that is not an
    [Exception] (a [KeyboardInterrupt], say) is not caught: it ends the
    loop, nothing is printed, and the entries behind the one being handled
    stay in the queue. *)
Theorem hard_exception_leaves_log_loop (c : LogService U) n w raw rest event e :
  faults w = [] -> shutdown w = false ->
  default [] (lists (rs w) !! LOGS_QUEUE) = raw :: rest ->
  decode_event json_loads raw = Returns event ->
  lc_raised (process_log c event (user w)) = Some e ->
  is_Exception e = false ->
  let r := log_loop json_loads c (S n) w in
  lr_end r = Failed e
  /\ printed (lr_trace r) = []
  /\ popped (lr_trace r) = [raw]
  /\ default [] (lists (rs (lr_final r)) !! LOGS_QUEUE) = rest.
Proof.
  intros F Hs Q D R X.
  destruct (log_while_head c n w raw rest F Hs Q) as (l' & Q' & E). cbv zeta in E.
  cbv zeta. unfold log_loop, log_after. rewrite E. clear E.
  unfold handle_log. rewrite D. cbv zeta. cbn [user with_rs]. rewrite R.
  unfold except_print. rewrite X. cbn. done.
Qed.

(** X25. [LogConsumer.loop]: once [self.shutdown] is set during a call of
    [process_log], the loop ends at its next test, whether the call raised
    an [Exception] or not: no further entry is popped and the rest of the
    queue is left in place. *)
Theorem log_loop_stops_after_shutdown (c : LogService U) n w raw rest event :
  faults w = [] -> shutdown w = false ->
  default [] (lists (rs w) !! LOGS_QUEUE) = raw :: rest ->
  decode_event json_loads raw = Returns event ->
  lc_shutdown (process_log c event (user w)) = true ->
  from_option is_Exception true (lc_raised (process_log c event (user w))) = true ->
  let r := log_loop json_loads c (S (S n)) w in
  lr_end r = Exited
  /\ popped (lr_trace r) = [raw]
  /\ process_log_calls (lr_trace r) = [event]
  /\ default [] (lists (rs (lr_final r)) !! LOGS_QUEUE) = rest.
Proof.
  intros F Hs Q D S1 X.
  destruct (log_while_head c (S n) w raw rest F Hs Q) as (l' & Q' & E). cbv zeta in E.
  cbv zeta. unfold log_loop, log_after. rewrite E. clear E.
  unfold handle_log. rewrite D. cbv zeta. cbn [user with_rs]. rewrite S1.
  destruct (lc_raised (process_log c event (user w))) as [e|].
  - cbn in X. unfold except_print. rewrite X. cbn. done.
  - cbn. done.
Qed.

End LogProps.

(** * Further concrete runs *)

Section MoreConcrete.
Import Demo Cases.

Lemma handler_gets_task_from_pre_hooks_witness :
  faults stocked = []
  /\ kv (rs stocked) !! ("karton.task:" +:+ "t1") = Some (TaskRecord sample)
  /\ is_Some (find (matches_bind sample) (filters service))
  /\ exists pre rest,
       events (internal_process service "t1" stocked) =
         [EvGet "karton.task:t1"; EvLogSetTask (Some sample);
          EvLog INFO "Received new task - %s" [ArgStr "t1"];
          EvDeclare sample STARTED "karton.test"]
         ++ pre
         ++ EvProcess [sample] (Some (Exc "ValueError" "bad sample")) :: rest.
Proof.
  split; [reflexivity|]. split; [vm_compute; reflexivity|].
  split; [rewrite sample_matches_second_bind; by eexists|].
  destruct demo_hooks_raise_Exceptions as (Hpre & _ & _).
  destruct (handler_gets_task_from_pre_hooks service "t1" sample stocked)
    as (t2 & pre & rest & C & _ & E);
    [reflexivity|vm_compute; reflexivity
    |rewrite sample_matches_second_bind; by eexists|exact Hpre|].
  exists pre, rest. rewrite E. vm_compute in C. injection C as <-. reflexivity.
Defined.


Lemma handler_hard_exception_is_swallowed_witness :
  faults stocked = []
  /\ kv (rs stocked) !! ("karton.task:" +:+ "t1") = Some (TaskRecord sample)
  /\ is_Some (find (matches_bind sample) (filters interrupted_service))
  /\ is_Exception KeyboardInterrupt = false
  /\ result (internal_process interrupted_service "t1" stocked) = Returns tt
  /\ post_hook_calls (events (internal_process interrupted_service "t1" stocked)) = [].
Proof.
  split; [reflexivity|]. split; [vm_compute; reflexivity|].
  split; [exists {["type" := "sample"]}; vm_compute; reflexivity|].
  split; [reflexivity|].
  destruct demo_hooks_raise_Exceptions as (Hpre & _ & _).
  destruct (handler_hard_exception_is_swallowed interrupted_service "t1" sample
              KeyboardInterrupt stocked)
    as (t2 & t3 & pre & _ & _ & _ & R & P & _);
    [reflexivity|vm_compute; reflexivity
    |exists {["type" := "sample"]}; vm_compute; reflexivity|exact Hpre
    |intros t2 _; reflexivity|reflexivity|].
  split; [exact R|exact P].
Defined.

Lemma pre_hook_hard_exception_propagates_witness :
  faults stocked = []
  /\ kv (rs stocked) !! ("karton.task:" +:+ "t1") = Some (TaskRecord sample)
  /\ is_Some (find (matches_bind sample) (filters guarded_service))
  /\ _pre_hooks guarded_service
     = [(Some "audit", failing_hook)] ++ (Some "gate", interrupted_hook) :: [(None, ok_hook)]
  /\ is_Exception KeyboardInterrupt = false
  /\ result (internal_process guarded_service "t1" stocked) = Raises KeyboardInterrupt.
Proof.
  split; [reflexivity|]. split; [vm_compute; reflexivity|].
  split; [exists {["type" := "sample"]}; vm_compute; reflexivity|].
  split; [reflexivity|]. split; [reflexivity|].
  destruct (pre_hook_hard_exception_propagates guarded_service "t1" sample
              KeyboardInterrupt stocked [(Some "audit", failing_hook)]
              (Some "gate") interrupted_hook [(None, ok_hook)])
    as (t2 & t3 & pre & _ & _ & _ & _ & R & _);
    [reflexivity|vm_compute; reflexivity
    |exists {["type" := "sample"]}; vm_compute; reflexivity|reflexivity
    |repeat constructor; intros t u e; cbn; intros [= <-]; reflexivity
    |intros t2 _; reflexivity|reflexivity|].
  exact R.
Defined.

Lemma loop_registers_first_witness :
  faults idle = []
  /\ exists rest,
       events (loop priority_format service 2 idle)
       = [EvLog INFO "Service %s started" [ArgStr "karton.test"];
          EvHgetHset BINDS "karton.test" "registration";
          EvLog INFO "Service binds created." [];
          EvLog INFO "Binding on: %s" [ArgBind {["type" := "config"]}];
          EvLog INFO "Binding on: %s" [ArgBind {["type" := "sample"]}];
          EvClientSetname "karton.test"] ++ rest.
Proof.
  split; [reflexivity|].
  destruct (loop_registers_first priority_format service 2 idle eq_refl) as (E & _).
  rewrite E. eexists. unfold after. cbn [events]. reflexivity.
Defined.

Lemma changed_binds_stop_the_loop_witness :
  faults idle = []
  /\ shutdown idle = false
  /\ binds (rs idle) !! identity service <> Some (_registration service)
  /\ result (while_not_shutdown priority_format service 4 idle) = Returns true.
Proof.
  split; [reflexivity|]. split; [reflexivity|]. split; [vm_compute; discriminate|].
  rewrite (changed_binds_stop_the_loop priority_format service 3 idle eq_refl eq_refl);
    [reflexivity|vm_compute; discriminate].
Defined.

Lemma idle_polling_changes_nothing_witness :
  faults stocked = []
  /\ shutdown stocked = false
  /\ binds (rs stocked) !! identity service = Some (_registration service)
  /\ Forall (no_items (lists (rs stocked))) (poll_keys priority_format service)
  /\ final (while_not_shutdown priority_format service 3 stocked) = stocked.
Proof.
  assert (Forall (no_items (lists (rs stocked))) (poll_keys priority_format service)) as N.
  { repeat constructor; left; vm_compute; reflexivity. }
  split; [reflexivity|]. split; [reflexivity|]. split; [vm_compute; reflexivity|].
  split; [exact N|].
  rewrite (idle_polling_changes_nothing priority_format service 3 stocked eq_refl eq_refl);
    [reflexivity|vm_compute; reflexivity|exact N].
Defined.

Lemma exception_in_a_pass_ends_the_loop_witness :
  shutdown unreachable = false
  /\ result (loop_body priority_format service unreachable)
     = Raises (Exc "ConnectionError" "broker down")
  /\ consume priority_format service 3 unreachable
     = mkOutcome (Raises (Exc "ConnectionError" "broker down")) stocked [].
Proof.
  split; [reflexivity|]. split; [vm_compute; reflexivity|].
  rewrite (exception_in_a_pass_ends_the_loop priority_format service 2
             (Exc "ConnectionError" "broker down") unreachable eq_refl);
    [vm_compute; reflexivity|vm_compute; reflexivity].
Defined.


Lemma continue_asynchronic_normal_exit_witness :
  let body : Py nat unit := ret tt in
  let o := continue_asynchronic service sample true body busy in
  result (body (with_current_task (Some sample) busy)) = Returns tt
  /\ result o = Returns tt
  /\ current_task (final o) = Some parent
  /\ events o = [EvLogSetTask (Some sample); EvDeclare sample FINISHED "karton.test";
                 EvLogSetTask (Some parent)].
Proof.
  cbv zeta. split; [reflexivity|].
  destruct (continue_asynchronic_normal_exit service sample true (ret tt) busy eq_refl)
    as (_ & H).
  destruct (H eq_refl sample eq_refl eq_refl) as (R & F & E).
  split; [exact R|]. split; [rewrite F; reflexivity|]. rewrite E. reflexivity.
Defined.

Lemma continue_asynchronic_failed_declaration_witness :
  let body : Py nat unit := ret tt in
  let w := with_faults [Some (Exc "ConnectionError" "broker down")] busy in
  let o := continue_asynchronic service sample true body w in
  result (body (with_current_task (Some sample) w)) = Returns tt
  /\ current_task (final (body (with_current_task (Some sample) w))) = Some sample
  /\ faults (final (body (with_current_task (Some sample) w)))
     = [Some (Exc "ConnectionError" "broker down")]
  /\ result o = Raises (Exc "ConnectionError" "broker down")
  /\ current_task (final o) = Some sample.
Proof.
  cbv zeta. split; [reflexivity|]. split; [reflexivity|]. split; [reflexivity|].
  destruct (continue_asynchronic_failed_declaration service sample (ret tt)
              (with_faults [Some (Exc "ConnectionError" "broker down")] busy)
              sample (Exc "ConnectionError" "broker down") [] eq_refl eq_refl eq_refl)
    as (R & C & _).
  split; [exact R|exact C].
Defined.

Lemma send_task_stamps_origin_and_time_witness :
  faults busy = []
  /\ exists t',
       kv (rs (final (send_task service sample busy))) !! "karton.task:t1"
       = Some (TaskRecord t')
       /\ last_update t' = 1700000000
       /\ headers t' !! "origin" = Some "karton.test"
       /\ headers t' !! "kind" = Some "raw".
Proof.
  split; [reflexivity|].
  destruct (send_task_stamps_origin_and_time service sample busy eq_refl)
    as (t' & K & _ & _ & L & O & H).
  exists t'. split; [exact K|]. split; [exact L|]. split; [exact O|].
  rewrite (H "kind"); [vm_compute; reflexivity|discriminate].
Defined.

Lemma send_task_without_current_task_witness :
  faults idle = []
  /\ current_task idle = None
  /\ exists t',
       kv (rs (final (send_task service sample idle))) !! "karton.task:t1"
       = Some (TaskRecord t')
       /\ priority t' = NORMAL
       /\ parent_uid t' = None
       /\ payload t' !! "sample" = Some (Res (LocalResource "sample.exe" (Some "karton") "MZ")).
Proof.
  split; [reflexivity|]. split; [reflexivity|].
  destruct (send_task_without_current_task service sample idle eq_refl eq_refl)
    as (t' & K & P & Q & _ & Y).
  exists t'. split; [exact K|]. split; [exact P|]. split; [exact Q|].
  rewrite Y. vm_compute. reflexivity.
Defined.



Lemma send_task_touches_only_its_entries_witness :
  faults stocked = []
  /\ kv (rs (final (send_task service parent stocked))) !! "karton.task:t1"
     = Some (TaskRecord sample)
  /\ binds (rs (final (send_task service parent stocked))) = binds (rs stocked).
Proof.
  split; [reflexivity|].
  destruct (send_task_touches_only_its_entries service parent stocked eq_refl)
    as (K & _ & _ & _ & B & _).
  split; [|exact B]. rewrite K; [vm_compute; reflexivity|vm_compute; discriminate].
Defined.

Lemma counting_logger_is_plain : plain_callback counting_logger.
Proof. intros body u. split; [reflexivity|]. intros e. cbn. discriminate. Defined.

Lemma log_loop_drains_queue_witness :
  plain_callback counting_logger
  /\ faults logs_waiting = []
  /\ shutdown logs_waiting = false
  /\ default [] (lists (rs logs_waiting) !! LOGS_QUEUE)
     = [task_entry; "{not json"; "42"; "{}"]
  /\ (length [task_entry; "{not json"; "42"; "{}"] < 5)%nat
  /\ lr_end (log_loop json_loads counting_logger 5 logs_waiting) = Blocked
  /\ process_log_calls (lr_trace (log_loop json_loads counting_logger 5 logs_waiting))
     = [JObject {["task" := JNumber "42"]}; JObject ∅].
Proof.
  split; [exact counting_logger_is_plain|]. split; [reflexivity|]. split; [reflexivity|].
  split; [vm_compute; reflexivity|]. split; [cbn; lia|].
  destruct (log_loop_drains_queue json_loads counting_logger
              [task_entry; "{not json"; "42"; "{}"] 5 logs_waiting)
    as (E & _ & C & _);
    [exact counting_logger_is_plain|reflexivity|reflexivity|vm_compute; reflexivity
    |cbn; lia|].
  split; [exact E|]. rewrite C. vm_compute. reflexivity.
Defined.

Lemma task_field_is_decoded_for_process_log_witness :
  faults logs_waiting = []
  /\ shutdown logs_waiting = false
  /\ default [] (lists (rs logs_waiting) !! LOGS_QUEUE)
     = task_entry :: ["{not json"; "42"; "{}"]
  /\ json_loads task_entry = Some (JObject {["task" := JString "42"]})
  /\ ({["task" := JString "42"]} : gmap string Json) !! "task" = Some (JString "42")
  /\ json_loads "42" = Some (JNumber "42")
  /\ exists tr,
       lr_trace (log_loop json_loads counting_logger 1 logs_waiting)
       = LcLog INFO "Logger %s started" [ArgStr "karton.logger"]
         :: LcBlpop LOGS_QUEUE (LOGS_QUEUE, task_entry)
         :: LcProcessLog (JObject (<["task" := JNumber "42"]> {["task" := JString "42"]})) None
         :: tr.
Proof.
  split; [reflexivity|]. split; [reflexivity|]. split; [vm_compute; reflexivity|].
  split; [vm_compute; reflexivity|]. split; [vm_compute; reflexivity|].
  split; [vm_compute; reflexivity|].
  apply (task_field_is_decoded_for_process_log json_loads counting_logger 0 logs_waiting
           task_entry ["{not json"; "42"; "{}"] {["task" := JString "42"]} "42"
           (JNumber "42"));
    solve [reflexivity | vm_compute; reflexivity].
Defined.

Lemma hard_exception_leaves_log_loop_witness :
  faults logs_waiting = []
  /\ shutdown logs_waiting = false
  /\ default [] (lists (rs logs_waiting) !! LOGS_QUEUE)
     = task_entry :: ["{not json"; "42"; "{}"]
  /\ decode_event json_loads task_entry = Returns (JObject {["task" := JNumber "42"]})
  /\ is_Exception KeyboardInterrupt = false
  /\ lr_end (log_loop json_loads interrupted_logger 3 logs_waiting) = Failed KeyboardInterrupt
  /\ default [] (lists (rs (lr_final (log_loop json_loads interrupted_logger 3 logs_waiting)))
                   !! LOGS_QUEUE)
     = ["{not json"; "42"; "{}"].
Proof.
  split; [reflexivity|]. split; [reflexivity|]. split; [vm_compute; reflexivity|].
  split; [vm_compute; reflexivity|]. split; [reflexivity|].
  destruct (hard_exception_leaves_log_loop json_loads interrupted_logger 2 logs_waiting
              task_entry ["{not json"; "42"; "{}"] (JObject {["task" := JNumber "42"]})
              KeyboardInterrupt)
    as (E & _ & _ & Q);
    [reflexivity|reflexivity|vm_compute; reflexivity|vm_compute; reflexivity
    |reflexivity|reflexivity|].
  split; [exact E|exact Q].
Defined.

Lemma log_loop_stops_after_shutdown_witness :
  faults logs_waiting = []
  /\ shutdown logs_waiting = false
  /\ default [] (lists (rs logs_waiting) !! LOGS_QUEUE)
     = task_entry :: ["{not json"; "42"; "{}"]
  /\ decode_event json_loads task_entry = Returns (JObject {["task" := JNumber "42"]})
  /\ lr_end (log_loop json_loads stopping_logger 3 logs_waiting) = Exited
  /\ popped (lr_trace (log_loop json_loads stopping_logger 3 logs_waiting)) = [task_entry].
Proof.
  split; [reflexivity|]. split; [reflexivity|]. split; [vm_compute; reflexivity|].
  split; [vm_compute; reflexivity|].
  destruct (log_loop_stops_after_shutdown json_loads stopping_logger 1 logs_waiting
              task_entry ["{not json"; "42"; "{}"] (JObject {["task" := JNumber "42"]}))
    as (E & P & _);
    [reflexivity|reflexivity|vm_compute; reflexivity|vm_compute; reflexivity
    |reflexivity|reflexivity|].
  split; [exact E|exact P].
Defined.

End MoreConcrete.
